(** * Talia Telegram bot: extraction, chunking, indexing and retrieval

    A shallow embedding of the parts of [pdf_parser.py], [vector_store.py]
    and [handlers.py] that decide how page texts are chosen, how a text is
    cut into chunks, how chunks are written to the index with dedup and
    retry, and how search results are filtered, ranked and merged.

    Conventions.
    - A Python [str] is a list of Unicode code points ([list N]).
    - A Python [int] is a [Z]; a count that the code only ever uses as a
      length or a slice bound from zero ([n_results]) is a [nat].
    - A Python [float] that holds a distance or a score is a rational
      ([Q]): the arithmetic is the exact one the floating-point code
      approximates.
    - A [while] loop that need not terminate takes fuel and returns [None]
      when the fuel runs out.
    - Code that mutates the store or raises runs in a state-and-exception
      monad: a raise keeps the writes made before it, as in Python. *)

From Stdlib Require Import ZArith NArith QArith Lia String Ascii.
From stdpp Require Import gmap list strings pretty sorting.

Set Default Proof Using "Type".
Local Open Scope Z_scope.

(* ===================================================================== *)
(** * Python strings *)
(* ===================================================================== *)

Module PyStr.

Abbreviation char := N (only parsing).
Abbreviation str := (list N) (only parsing).

(** A string literal of the development, as a Python [str] (ASCII only). *)
Definition py (s : string) : str :=
  List.map N_of_ascii (list_ascii_of_string s).

Definition in_range (lo hi c : N) : bool := ((lo <=? c) && (c <=? hi))%N.

(** [str.isspace] on one character; also what [str.split()], [str.strip()]
    and the regular expression [\s] treat as whitespace:
    U+0009..U+000D, U+001C..U+0020, U+0085, U+00A0, U+1680,
    U+2000..U+200A, U+2028, U+2029, U+202F, U+205F, U+3000. *)
Definition isspace (c : char) : bool :=
  in_range 9 13 c || in_range 28 32 c || (c =? 133)%N || (c =? 160)%N
  || (c =? 5760)%N || in_range 8192 8202 c || (c =? 8232)%N
  || (c =? 8233)%N || (c =? 8239)%N || (c =? 8287)%N || (c =? 12288)%N.

(** The character [" "]. *)
Definition space : char := 32%N.

Definition cons_head (c : char) (ws : list str) : list str :=
  match ws with
  | w :: ws' => (c :: w) :: ws'
  | [] => [[c]]
  end.

(** [s.split()]: the maximal runs of non-whitespace characters, in order. *)
Fixpoint split (s : str) : list str :=
  match s with
  | [] => []
  | c :: s' =>
      if isspace c then split s'
      else match s' with
           | [] => [[c]]
           | d :: _ => if isspace d then [c] :: split s'
                       else cons_head c (split s')
           end
  end.

(** [sep.join(ws)]. *)
Fixpoint join (sep : str) (ws : list str) : str :=
  match ws with
  | [] => []
  | [w] => w
  | w :: ws' => w ++ sep ++ join sep ws'
  end.

Fixpoint lstrip (s : str) : str :=
  match s with
  | c :: s' => if isspace c then lstrip s' else s
  | [] => []
  end.

(** [s.strip()]. *)
Definition strip (s : str) : str := rev (lstrip (rev (lstrip s))).

(** [re.sub(r'\s+', '', s)]. *)
Definition remove_whitespace (s : str) : str :=
  List.filter (fun c => negb (isspace c)) s.

(** [l[a:b]] for a list and two integers: a negative index counts from the
    end, an index past either end is clipped, and the slice is empty when
    the start is not before the stop. *)
Definition slice_index (n i : Z) : Z :=
  if i <? 0 then Z.max (i + n) 0 else Z.min i n.

Definition py_slice {A : Type} (l : list A) (a b : Z) : list A :=
  let n := Z.of_nat (length l) in
  let a' := slice_index n a in
  let b' := slice_index n b in
  take (Z.to_nat (b' - a')) (drop (Z.to_nat a') l).

(** Truth value of a string or a list: only the empty one is false. *)
Definition truthy {A : Type} (l : list A) : bool :=
  match l with
  | [] => false
  | _ :: _ => true
  end.

(** A word: non-empty, and free of whitespace. *)
Definition is_word (w : str) : Prop :=
  w <> [] /\ Forall (fun c => isspace c = false) w.

End PyStr.
Import PyStr.

(* ===================================================================== *)
(** * The chunker: [VectorStore._split_text_into_chunks] *)
(* ===================================================================== *)

Module Chunker.

(** The [while start < len(words)] loop. One unit of fuel is one test of
    the loop condition; [None] means the fuel ran out before the loop
    ended. *)
Fixpoint split_loop (fuel : nat) (chunk_size chunk_overlap : Z)
    (words : list str) (start : Z) (chunks : list str) : option (list str) :=
  match fuel with
  | O => None
  | S fuel' =>
      let n := Z.of_nat (length words) in
      if start <? n then
        let end_ := Z.min (start + chunk_size) n in
        let chunk := join [space] (py_slice words start end_) in
        let chunks' := chunks ++ [chunk] in
        let start' := end_ - chunk_overlap in
        if start' >=? n then Some chunks'
        else split_loop fuel' chunk_size chunk_overlap words start' chunks'
      else Some chunks
  end.

Definition _split_text_into_chunks (fuel : nat) (chunk_size chunk_overlap : Z)
    (text : str) : option (list str) :=
  let words := split text in
  if Z.of_nat (length words) <=? chunk_size then Some [text]
  else split_loop fuel chunk_size chunk_overlap words 0 [].

(** The call never returns: no amount of fuel is enough. *)
Definition never_returns {A : Type} (run : nat -> option A) : Prop :=
  forall fuel, run fuel = None.

End Chunker.
Import Chunker.

(* ===================================================================== *)
(** * Exceptions and state *)
(* ===================================================================== *)

Module Py.

(** An exception object (a subclass of [Exception]); the text says where it
    was raised. *)
Inductive exn : Type := Exception (what : string).

Inductive outcome (A : Type) : Type :=
| Ret (a : A)
| Raise (e : exn).
Arguments Ret {A} a.
Arguments Raise {A} e.

Definition obind {A B : Type} (m : outcome A) (k : A -> outcome B) : outcome B :=
  match m with
  | Ret a => k a
  | Raise e => Raise e
  end.

(** [try: m  except Exception as e: h e]. *)
Definition otry {A : Type} (m : outcome A) (h : exn -> outcome A) : outcome A :=
  match m with
  | Ret a => Ret a
  | Raise e => h e
  end.

(** A computation over a mutable store [S] that may raise. The store that
    comes back with a [Raise] holds every write made before the raise. *)
Definition M (S A : Type) : Type := S -> outcome A * S.

Definition ret {S A : Type} (a : A) : M S A := fun s => (Ret a, s).
Definition raise {S A : Type} (e : exn) : M S A := fun s => (Raise e, s).
Definition bind {S A B : Type} (m : M S A) (k : A -> M S B) : M S B :=
  fun s => match m s with
           | (Ret a, s') => k a s'
           | (Raise e, s') => (Raise e, s')
           end.
Definition try_catch {S A : Type} (m : M S A) (h : exn -> M S A) : M S A :=
  fun s => match m s with
           | (Ret a, s') => (Ret a, s')
           | (Raise e, s') => h e s'
           end.
Definition get {S : Type} : M S S := fun s => (Ret s, s).
Definition modify {S : Type} (f : S -> S) : M S unit := fun s => (Ret tt, f s).

(** A body whose every path is under a [try] that returns [fallback] from
    its handler: it always returns a value. *)
Definition run_total {S A : Type} (m : M S A) (fallback : A) (s : S) : A * S :=
  match m s with
  | (Ret a, s') => (a, s')
  | (Raise _, s') => (fallback, s')
  end.

End Py.
Import Py.

#[export] Instance outcome_ret : MRet outcome := @Ret.
#[export] Instance outcome_bind : MBind outcome := fun A B k m => obind m k.
#[export] Instance M_ret (S : Type) : MRet (M S) := @ret S.
#[export] Instance M_bind (S : Type) : MBind (M S) := fun A B k m => bind m k.

(* ===================================================================== *)
(** * The extractor: [pdf_parser.py] *)
(* ===================================================================== *)

Module PdfParser.

(** [self.min_text_length], set in [__init__]. *)
Definition min_text_length : Z := 120.

(** The characters kept by [re.sub(r'[^A-Za-z0-9ÄÖÜäöüß]', '', _)]. *)
Definition is_alphanumeric (c : char) : bool :=
  in_range 65 90 c || in_range 97 122 c || in_range 48 57 c
  || (c =? 196)%N || (c =? 214)%N || (c =? 220)%N
  || (c =? 228)%N || (c =? 246)%N || (c =? 252)%N || (c =? 223)%N.

(** [len(alphanumeric) < self.min_text_length * 0.5] compares an integer
    with half of an integer; doubled, it is an integer comparison. *)
Definition _is_text_sufficient (text : str) : bool :=
  if negb (truthy text) then false
  else
    let cleaned := remove_whitespace text in
    if Z.of_nat (length cleaned) <? min_text_length then false
    else
      let alphanumeric := List.filter is_alphanumeric cleaned in
      if 2 * Z.of_nat (length alphanumeric) <? min_text_length then false
      else
        let words := split text in
        if Z.of_nat (length words) <? 20 then false else true.

(** What the two awaited helpers of one page give. Both helpers catch their
    own errors and return a string; the model lets either raise all the same,
    so that the handler of [_process_page_async] is exercised. *)
Record Page : Type := {
  extract_text_normal : outcome str;
  extract_text_ocr : outcome str
}.

(** The body of the [try] of [_process_page_async]. *)
Definition process_page_body (p : Page) : outcome (option str) :=
  page_text ← extract_text_normal p;
  if _is_text_sufficient page_text then Ret (Some page_text)
  else
    ocr_text ← extract_text_ocr p;
    if _is_text_sufficient ocr_text then Ret (Some ocr_text)
    else Ret (Some (if truthy page_text then page_text else ocr_text)).

(** [except Exception: return None]. *)
Definition _process_page_async (p : Page) : outcome (option str) :=
  otry (process_page_body p) (fun _ => Ret None).

(** [asyncio.gather] with [return_exceptions=True]: one entry per task,
    its value or the exception it raised. *)
Definition gather {A : Type} (tasks : list (outcome A)) : list (outcome A) := tasks.

(** The loop over [page_texts] that fills [paragraphs]. *)
Fixpoint collect_paragraphs (page_texts : list (outcome (option str))) : list str :=
  match page_texts with
  | [] => []
  | Raise _ :: rest => collect_paragraphs rest
  | Ret None :: rest => collect_paragraphs rest
  | Ret (Some result) :: rest =>
      if truthy result && (0 <? length (strip result))%nat
      then strip result :: collect_paragraphs rest
      else collect_paragraphs rest
  end.

(** [pdf] is what opening the file and reading its page list gives: the
    pages, or the exception raised by [open] or [PyPDF2.PdfReader]. *)
Definition extract_paragraphs_from_pdf (pdf : outcome (list Page)) : outcome (list str) :=
  otry
    (pages ← pdf;
     let tasks := List.map _process_page_async pages in
     let page_texts := gather tasks in
     Ret (collect_paragraphs page_texts))
    (fun _ => Ret []).

(** A page has extractable text when its task returns a text that is not
    blank. *)
Definition extractable (p : Page) : Prop :=
  exists result : str, _process_page_async p = Ret (Some result) /\ strip result <> [].

End PdfParser.
Import PdfParser.

(* ===================================================================== *)
(** * The index: [vector_store.py] *)
(* ===================================================================== *)

Module VectorStore.

(** A metadata value: the code stores strings and integers. *)
Inductive value : Type :=
| VStr (s : str)
| VInt (z : Z).

(** One chunk as the backend collection holds it. *)
Record Entry : Type := {
  entry_id : str;
  entry_document : str;
  entry_metadata : gmap string value
}.

(** What the store does to the world, in order. *)
Inductive Event : Type :=
| EvAdd (ok : bool)            (* a call of [collection.add] and whether it returned *)
| EvSleep (seconds : Z)        (* [time.sleep(seconds)] *)
| EvReconnect (ok : bool)      (* an attempt to open a fresh client *)
| EvReset (ok : bool).         (* [client.reset()] *)

(** The answer of [collection.query]. *)
Record QueryResult : Type := {
  metadatas : list (list (gmap string value));
  distances : list (list Q);
  documents : list (list str)
}.

(** Everything the store does not decide itself: whether the k-th call of a
    backend operation succeeds, what the backend answers to a query given
    what it holds, and the library functions of hashing, path resolution
    and character classification. *)
Record Env : Type := {
  add_ok : nat -> bool;
  reconnect_ok : nat -> bool;
  reset_ok : nat -> bool;
  collection_query : list Entry -> str -> nat -> option str -> outcome QueryResult;
  sha1_hexdigest : str -> str;
  abspath : str -> str;
  isalpha : char -> bool
}.

(** The [VectorStore] object together with the backend it talks to:
    [collection] is what the backend has persisted, the three counters say
    how often each backend operation has been called, [trace] lists the
    effects so far. *)
Record VectorStore : Type := {
  chunk_size : Z;
  chunk_overlap : Z;
  batch_size : Z;
  seen_hashes : gset (list N);
  collection : list Entry;
  add_calls : nat;
  reconnect_calls : nat;
  reset_calls : nat;
  trace : list Event
}.

Definition with_seen_hashes (f : gset (list N) -> gset (list N)) (vs : VectorStore) : VectorStore :=
  {| chunk_size := chunk_size vs; chunk_overlap := chunk_overlap vs;
     batch_size := batch_size vs; seen_hashes := f (seen_hashes vs);
     collection := collection vs; add_calls := add_calls vs;
     reconnect_calls := reconnect_calls vs; reset_calls := reset_calls vs;
     trace := trace vs |}.

Definition with_collection (f : list Entry -> list Entry) (vs : VectorStore) : VectorStore :=
  {| chunk_size := chunk_size vs; chunk_overlap := chunk_overlap vs;
     batch_size := batch_size vs; seen_hashes := seen_hashes vs;
     collection := f (collection vs); add_calls := add_calls vs;
     reconnect_calls := reconnect_calls vs; reset_calls := reset_calls vs;
     trace := trace vs |}.

(** The event joins the trace. *)
Definition log (ev : Event) (vs : VectorStore) : VectorStore :=
  {| chunk_size := chunk_size vs; chunk_overlap := chunk_overlap vs;
     batch_size := batch_size vs; seen_hashes := seen_hashes vs;
     collection := collection vs; add_calls := add_calls vs;
     reconnect_calls := reconnect_calls vs; reset_calls := reset_calls vs;
     trace := trace vs ++ [ev] |}.

(** One more call of [collection.add], of the client constructor, of
    [client.reset]. *)
Definition count_add (vs : VectorStore) : VectorStore :=
  {| chunk_size := chunk_size vs; chunk_overlap := chunk_overlap vs;
     batch_size := batch_size vs; seen_hashes := seen_hashes vs;
     collection := collection vs; add_calls := S (add_calls vs);
     reconnect_calls := reconnect_calls vs; reset_calls := reset_calls vs;
     trace := trace vs |}.

Definition count_reconnect (vs : VectorStore) : VectorStore :=
  {| chunk_size := chunk_size vs; chunk_overlap := chunk_overlap vs;
     batch_size := batch_size vs; seen_hashes := seen_hashes vs;
     collection := collection vs; add_calls := add_calls vs;
     reconnect_calls := S (reconnect_calls vs); reset_calls := reset_calls vs;
     trace := trace vs |}.

Definition count_reset (vs : VectorStore) : VectorStore :=
  {| chunk_size := chunk_size vs; chunk_overlap := chunk_overlap vs;
     batch_size := batch_size vs; seen_hashes := seen_hashes vs;
     collection := collection vs; add_calls := add_calls vs;
     reconnect_calls := reconnect_calls vs; reset_calls := S (reset_calls vs);
     trace := trace vs |}.

(** The defaults of [__init__], on an empty backend. *)
Definition default_store : VectorStore :=
  {| chunk_size := 1000; chunk_overlap := 200; batch_size := 256;
     seen_hashes := ∅; collection := []; add_calls := 0; reconnect_calls := 0;
     reset_calls := 0; trace := [] |}.

Fixpoint zip3 {A B C : Type} (la : list A) (lb : list B) (lc : list C) : list (A * B * C) :=
  match la, lb, lc with
  | a :: la', b :: lb', c :: lc' => (a, b, c) :: zip3 la' lb' lc'
  | _, _, _ => []
  end.

Definition make_entry (row : str * str * gmap string value) : Entry :=
  let '(id, document, metadata) := row in
  {| entry_id := id; entry_document := document; entry_metadata := metadata |}.

(** [self.collection.add(documents=..., metadatas=..., ids=...)]: the call
    either stores the whole batch or raises and stores nothing. *)
Definition collection_add (env : Env) (documents : list str)
    (metadatas : list (gmap string value)) (ids : list str) : M VectorStore unit :=
  fun vs =>
    let ok := add_ok env (add_calls vs) in
    let vs' := log (EvAdd ok) (count_add vs) in
    if ok
    then (Ret tt, with_collection (fun c => c ++ List.map make_entry (zip3 ids documents metadatas)) vs')
    else (Raise (Exception "collection.add"), vs').

Definition time_sleep (seconds : Z) : M VectorStore unit :=
  modify (log (EvSleep seconds)).

(** Opening [chromadb.PersistentClient] and the collection again. *)
Definition client_connect (env : Env) : M VectorStore unit :=
  fun vs =>
    let ok := reconnect_ok env (reconnect_calls vs) in
    let vs' := log (EvReconnect ok) (count_reconnect vs) in
    if ok then (Ret tt, vs') else (Raise (Exception "PersistentClient"), vs').

(** [self.client.reset()]: on success the backend holds nothing. *)
Definition client_reset (env : Env) : M VectorStore unit :=
  fun vs =>
    let ok := reset_ok env (reset_calls vs) in
    let vs' := log (EvReset ok) (count_reset vs) in
    if ok then (Ret tt, with_collection (fun _ => []) vs')
    else (Raise (Exception "client.reset"), vs').

(** The handler logs and raises the exception again. *)
Definition _reconnect_client (env : Env) : M VectorStore unit :=
  try_catch (client_connect env) (fun e => raise e).

Definition max_retries : nat := 3.

(** The [for attempt in range(max_retries)] loop of [_add_batch], with the
    current [backoff_time]. An empty range falls through to the final
    [return False]. *)
Fixpoint add_batch_attempts (env : Env) (attempts : list nat) (backoff_time : Z)
    (documents : list str) (metadatas : list (gmap string value)) (ids : list str)
    : M VectorStore bool :=
  match attempts with
  | [] => mret false
  | attempt :: rest =>
      try_catch
        (collection_add env documents metadatas ids ;; mret true)
        (fun _ =>
           if (attempt <? max_retries - 1)%nat then
             time_sleep backoff_time ;;
             try_catch (_reconnect_client env) (fun _ => mret tt) ;;
             add_batch_attempts env rest (backoff_time * 2) documents metadatas ids
           else mret false)
  end.

Definition _add_batch (env : Env) (documents : list str)
    (metadatas : list (gmap string value)) (ids : list str) : M VectorStore bool :=
  add_batch_attempts env (seq 0 max_retries) 1 documents metadatas ids.

(** [f"{path_hash}_chunk_{chunk_index}"] with the first eight hex digits of
    the hash of the absolute path. *)
Definition _generate_unique_id (env : Env) (doc_id : str) (chunk_index : nat) : str :=
  let full_path := abspath env doc_id in
  let path_hash := take 8 (sha1_hexdigest env full_path) in
  path_hash ++ py "_chunk_" ++ py (pretty chunk_index).

Definition _calculate_chunk_hash (env : Env) (chunk : str) : str :=
  sha1_hexdigest env chunk.

Definition sum_lengths (words : list str) : nat :=
  foldr (fun w acc => (length w + acc)%nat) 0%nat words.

(** The two ratio tests are written without division:
    [alpha_chars / total_chars < 0.3] as [10 * alpha_chars < 3 * total_chars]
    and [avg_word_length < 2.0] as [sum < 2 * len(words)]. *)
Definition _passes_quality_check (env : Env) (chunk : str) : bool :=
  if negb (truthy chunk) || (length (strip chunk) =? 0)%nat then false
  else if (length (strip chunk) <? 100)%nat then false
  else
    let words := split chunk in
    if (length words <? 10)%nat then false
    else
      let alpha_chars := length (List.filter (isalpha env) chunk) in
      let total_chars := length chunk in
      if (0 <? total_chars)%nat && (10 * alpha_chars <? 3 * total_chars)%nat then false
      else if truthy words && (sum_lengths words <? 2 * length words)%nat then false
      else true.

(** The metadata written with a chunk; [**(metadata or {})] comes last in
    the dict display, so its keys win. *)
Definition chunk_metadata (doc_id unique_id : str) (i total_chunks : nat)
    (chunk_hash : str) (metadata : option (gmap string value)) : gmap string value :=
  default ∅ metadata ∪
  <["doc_id" := VStr doc_id]>
    (<["chunk_id" := VStr unique_id]>
      (<["chunk_index" := VInt (Z.of_nat i)]>
        (<["total_chunks" := VInt (Z.of_nat total_chunks)]>
          (<["chunk_hash" := VStr chunk_hash]> ∅)))).

Definition Batch : Type := list str * list (gmap string value) * list str.

(** The [for i, chunk in enumerate(chunks)] loop of [add_document] with the
    three batch lists. [None] is the early [return False]; [Some] holds the
    batch still to be flushed when the loop is over. *)
Fixpoint add_document_loop (env : Env) (doc_id : str)
    (metadata : option (gmap string value)) (total_chunks : nat)
    (chunks : list (nat * str)) (batch : Batch) : M VectorStore (option Batch) :=
  match chunks with
  | [] => mret (Some batch)
  | (i, chunk) :: rest =>
      if negb (_passes_quality_check env chunk)
      then add_document_loop env doc_id metadata total_chunks rest batch
      else
        let chunk_hash := _calculate_chunk_hash env chunk in
        vs ← get;
        if bool_decide (chunk_hash ∈ seen_hashes vs)
        then add_document_loop env doc_id metadata total_chunks rest batch
        else
          let unique_id := _generate_unique_id env doc_id i in
          let '(doc_batch, meta_batch, id_batch) := batch in
          let doc_batch := doc_batch ++ [chunk] in
          let meta_batch :=
            meta_batch ++ [chunk_metadata doc_id unique_id i total_chunks chunk_hash metadata] in
          let id_batch := id_batch ++ [unique_id] in
          modify (with_seen_hashes (fun s => s ∪ {[chunk_hash]})) ;;
          if batch_size vs <=? Z.of_nat (length doc_batch) then
            success ← _add_batch env doc_batch meta_batch id_batch;
            if success : bool
            then add_document_loop env doc_id metadata total_chunks rest ([], [], [])
            else mret None
          else add_document_loop env doc_id metadata total_chunks rest
                 (doc_batch, meta_batch, id_batch)
  end.

Definition enumerate {A : Type} (l : list A) : list (nat * A) :=
  zip (seq 0 (length l)) l.

(** [add_document]; [None] when the chunker does not return within [fuel]. *)
Definition add_document (env : Env) (fuel : nat) (doc_id text : str)
    (metadata : option (gmap string value)) (vs : VectorStore)
    : option (bool * VectorStore) :=
  match _split_text_into_chunks fuel (chunk_size vs) (chunk_overlap vs) text with
  | None => None
  | Some chunks =>
      Some (run_total
        (try_catch
           (pending ← add_document_loop env doc_id metadata (length chunks)
                        (enumerate chunks) ([], [], []);
            match pending with
            | None => mret false
            | Some (doc_batch, meta_batch, id_batch) =>
                if truthy doc_batch then
                  success ← _add_batch env doc_batch meta_batch id_batch;
                  if success : bool then mret true else mret false
                else mret true
            end)
           (fun _ => mret false))
        false vs)
  end.

Definition clear_all (env : Env) (vs : VectorStore) : bool * VectorStore :=
  run_total
    (try_catch
       (client_reset env ;;
        modify (with_seen_hashes (fun _ => ∅)) ;;
        mret true)
       (fun _ => mret false))
    false vs.

(** ** Example surroundings *)

(** ASCII letters, as [str.isalpha] classifies them. *)
Definition ascii_isalpha (c : char) : bool := in_range 65 90 c || in_range 97 122 c.

(** A backend that refuses every write and every reset and answers no
    query, while a fresh client can always be opened. The hash and the path
    resolution are stand-ins (the identity); nothing proved below depends
    on which functions they are. *)
Definition offline_env : Env :=
  {| add_ok := fun _ => false;
     reconnect_ok := fun _ => true;
     reset_ok := fun _ => false;
     collection_query := fun _ _ _ _ => Raise (Exception "collection.query");
     sha1_hexdigest := fun s => s;
     abspath := fun s => s;
     isalpha := ascii_isalpha |}.

(** The same surroundings once the backend accepts every call again. *)
Definition recovered (env : Env) : Env :=
  {| add_ok := fun _ => true;
     reconnect_ok := fun _ => true;
     reset_ok := fun _ => true;
     collection_query := collection_query env;
     sha1_hexdigest := sha1_hexdigest env;
     abspath := abspath env;
     isalpha := isalpha env |}.

(** Twenty words, 123 characters. *)
Definition sample_text : str :=
  py "alpha bravo charlie delta echo foxtrot golf hotel india juliet kilo lima mike november oscar papa quebec romeo sierra tango".

(** ** Search *)

(** One hit as [search] returns it; [source_pdf] is the key the global
    search adds afterwards. *)
Record SearchResult : Type := {
  doc_id : value;
  chunk_id : value;
  chunk_index : value;
  text : str;
  similarity_score : Q;
  metadata : gmap string value;
  source_pdf : option str
}.

(** [1.0 / (1.0 + distance)] as a number. *)
Definition score (distance : Q) : Q := (1 / (1 + distance))%Q.

(** The same as the code evaluates it: dividing by zero raises. *)
Definition compute_score (distance : Q) : outcome Q :=
  if Qeq_bool (1 + distance) 0 then Raise (Exception "ZeroDivisionError")
  else Ret (score distance).

(** [seq[0]]. *)
Definition item0 {A : Type} (l : list A) : outcome A :=
  match l with
  | x :: _ => Ret x
  | [] => Raise (Exception "IndexError")
  end.

Definition make_result (metadata : gmap string value) (document : str)
    (similarity_score : Q) : SearchResult :=
  {| doc_id := default (VStr []) (metadata !! "doc_id");
     chunk_id := default (VStr []) (metadata !! "chunk_id");
     chunk_index := default (VInt 0) (metadata !! "chunk_index");
     text := document;
     similarity_score := similarity_score;
     metadata := metadata;
     source_pdf := None |}.

(** The loop over [zip(metadatas, distances, documents)] that fills
    [filtered_results]. *)
Fixpoint filter_results (rows : list (gmap string value * Q * str))
    (similarity_threshold : Q) (filtered_results : list SearchResult)
    : outcome (list SearchResult) :=
  match rows with
  | [] => Ret filtered_results
  | (metadata, distance, document) :: rest =>
      similarity_score ← compute_score distance;
      if Qle_bool similarity_threshold similarity_score
      then filter_results rest similarity_threshold
             (filtered_results ++ [make_result metadata document similarity_score])
      else filter_results rest similarity_threshold filtered_results
  end.

(** [l.sort(key=lambda x: x["similarity_score"], reverse=True)]: a stable
    sort, largest score first; results of equal score keep their order. *)
Fixpoint insert_by_score (x : SearchResult) (l : list SearchResult) : list SearchResult :=
  match l with
  | [] => [x]
  | y :: l' =>
      if Qle_bool (similarity_score y) (similarity_score x)
      then x :: y :: l'
      else y :: insert_by_score x l'
  end.

Definition sort_by_score (l : list SearchResult) : list SearchResult :=
  foldr insert_by_score [] l.

(** The part [search] and [search_in_document] share word for word: read
    the first row of each column, filter, sort, cut. *)
Definition rank_results (results : QueryResult) (n_results : nat)
    (similarity_threshold : Q) : outcome (list SearchResult) :=
  ms ← item0 (metadatas results);
  ds ← item0 (distances results);
  docs ← item0 (documents results);
  filtered_results ← filter_results (zip3 ms ds docs) similarity_threshold [];
  let filtered_results := sort_by_score filtered_results in
  let final_results := take n_results filtered_results in
  Ret final_results.

(** The value of a body under [try ... except Exception: return fallback]. *)
Definition or_else {A : Type} (m : outcome A) (fallback : A) : A :=
  match m with
  | Ret a => a
  | Raise _ => fallback
  end.

Definition search (env : Env) (vs : VectorStore) (query : str) (n_results : nat)
    (similarity_threshold : Q) : list SearchResult :=
  or_else
    (results ← collection_query env (collection vs) query (n_results * 2)%nat None;
     rank_results results n_results similarity_threshold)
    [].

Definition search_in_document (env : Env) (vs : VectorStore) (query doc_id : str)
    (n_results : nat) (similarity_threshold : Q) : list SearchResult :=
  or_else
    (results ← collection_query env (collection vs) query (n_results * 2)%nat (Some doc_id);
     rank_results results n_results similarity_threshold)
    [].

(** The default [similarity_threshold=0.15]. *)
Definition default_threshold : Q := 15 # 100.

(** The chunk list of [get_combined_context_for_document], the second
    component of its result (the first is the text laid out from it). *)
Definition get_combined_context_for_document (env : Env) (vs : VectorStore)
    (query doc_id : str) (max_chunks : nat) : list SearchResult :=
  let chunks := search_in_document env vs query doc_id max_chunks default_threshold in
  if negb (truthy chunks) then [] else chunks.

(** A backend that holds two chunks of ["A.pdf"], at distances 4 and 1/9
    (scores 0.2 and 0.9), and one chunk of any other document, at distance
    3/2 (score 0.4). *)
Definition two_documents_env : Env :=
  {| add_ok := fun _ => true;
     reconnect_ok := fun _ => true;
     reset_ok := fun _ => true;
     collection_query := fun _ _ _ where_doc_id =>
       match where_doc_id with
       | None => Raise (Exception "collection.query")
       | Some d =>
           if bool_decide (d = py "A.pdf")
           then Ret {| metadatas := [[∅; ∅]];
                       distances := [[4; 1 # 9]]%Q;
                       documents := [[py "a-weak"; py "a-best"]] |}
           else Ret {| metadatas := [[∅]];
                       distances := [[3 # 2]]%Q;
                       documents := [[py "b-best"]] |}
       end;
     sha1_hexdigest := fun s => s;
     abspath := fun s => s;
     isalpha := ascii_isalpha |}.

(** Largest score first: no result is followed by one of a larger score. *)
Definition ranked (l : list SearchResult) : Prop :=
  StronglySorted (fun a b => (similarity_score b <= similarity_score a)%Q) l.

(** The rows of the backend's answer that [search] reads. *)
Definition answer_rows (results : QueryResult) : list (gmap string value * Q * str) :=
  match metadatas results, distances results, documents results with
  | ms :: _, ds :: _, docs :: _ => zip3 ms ds docs
  | _, _, _ => []
  end.

(** [hit] was built from a row of [rows] whose score reaches the
    threshold, with that row's text and metadata and the score
    [1/(1+distance)] of its distance. *)
Definition from_row (rows : list (gmap string value * Q * str))
    (similarity_threshold : Q) (hit : SearchResult) : Prop :=
  exists (metadata : gmap string value) (distance : Q) (document : str),
    (metadata, distance, document) ∈ rows
    /\ hit = make_result metadata document (score distance)
    /\ (similarity_threshold <= score distance)%Q.

End VectorStore.
Import VectorStore.

(* ===================================================================== *)
(** * The retriever: [handlers.py] *)
(* ===================================================================== *)

Module Handlers.

(** [chunk['source_pdf'] = pdf_file]. *)
Definition set_source_pdf (pdf_file : str) (chunk : SearchResult) : SearchResult :=
  {| doc_id := doc_id chunk; chunk_id := chunk_id chunk;
     chunk_index := chunk_index chunk; text := text chunk;
     similarity_score := similarity_score chunk; metadata := metadata chunk;
     source_pdf := Some pdf_file |}.

(** What one pass of the loop over [pdf_files] appends to [all_results].
    [indexed] is the store as [_ensure_document_indexed] leaves it for this
    document, or the exception that ends the pass. *)
Definition document_results (env : Env) (user_question pdf_file : str)
    (indexed : outcome VectorStore.VectorStore) : list SearchResult :=
  match indexed with
  | Raise _ => []
  | Ret vs =>
      let chunks_info := get_combined_context_for_document env vs user_question pdf_file 2 in
      if truthy chunks_info
      then List.map (set_source_pdf pdf_file) (take 2 chunks_info)
      else []
  end.

Fixpoint collect_all_results (env : Env) (user_question : str)
    (pdf_files : list (str * outcome VectorStore.VectorStore)) : list SearchResult :=
  match pdf_files with
  | [] => []
  | (pdf_file, indexed) :: rest =>
      document_results env user_question pdf_file indexed
      ++ collect_all_results env user_question rest
  end.

(** What the global search hands on: nothing relevant, or the ranked chunks
    given to the answering model. *)
Inductive Retrieval : Type :=
| NoRelevantInformation
| BestResults (best_results : list SearchResult).

Definition _handle_global_search (env : Env) (user_question : str)
    (pdf_files : list (str * outcome VectorStore.VectorStore)) : Retrieval :=
  let all_results := collect_all_results env user_question pdf_files in
  if negb (truthy all_results) then NoRelevantInformation
  else
    let all_results := sort_by_score all_results in
    let best_results := take 4 all_results in
    BestResults best_results.

End Handlers.
Import Handlers.

(* ===================================================================== *)
(** * Further inputs for worked instances *)
(* ===================================================================== *)

Module Samples.


(** Twenty-six words, 138 letters: a sufficient page text. *)
Definition page_sample : str :=
  py "alpha bravo charlie delta echo foxtrot golf hotel india juliet kilo lima mike november oscar papa quebec romeo sierra tango uniform victor whiskey xray yankee zulu".

End Samples.
Import Samples.

(* ===================================================================== *)
(** * What [add_document] queues *)
(* ===================================================================== *)

Module IndexSpec.

(** The row queued for chunk number [i]: its id, its text and its metadata,
    as the loop of [add_document] builds them. *)
Definition chunk_row (env : Env) (doc_id : str) (metadata : option (gmap string value))
    (total_chunks i : nat) (chunk : str) : str * str * gmap string value :=
  let unique_id := _generate_unique_id env doc_id i in
  (unique_id, chunk,
   chunk_metadata doc_id unique_id i total_chunks (_calculate_chunk_hash env chunk)
     metadata).

(** The rows the loop queues for [chunks] when the dedup cache holds [seen]
    at its start: one for every chunk that passes the quality gate and
    whose hash is neither in [seen] nor the hash of a chunk queued before
    it. Batching and flushing play no part in this choice. *)
Fixpoint accepted_rows (env : Env) (doc_id : str) (metadata : option (gmap string value))
    (total_chunks : nat) (chunks : list (nat * str)) (seen : gset (list N))
    : list (str * str * gmap string value) :=
  match chunks with
  | [] => []
  | (i, chunk) :: rest =>
      if _passes_quality_check env chunk
         && negb (bool_decide (_calculate_chunk_hash env chunk ∈ seen))
      then chunk_row env doc_id metadata total_chunks i chunk
           :: accepted_rows env doc_id metadata total_chunks rest
                (seen ∪ {[_calculate_chunk_hash env chunk]})
      else accepted_rows env doc_id metadata total_chunks rest seen
  end.

(** The dedup cache once the loop has gone through [chunks]. *)
Fixpoint seen_after (env : Env) (chunks : list (nat * str)) (seen : gset (list N))
    : gset (list N) :=
  match chunks with
  | [] => seen
  | (_, chunk) :: rest =>
      if _passes_quality_check env chunk
         && negb (bool_decide (_calculate_chunk_hash env chunk ∈ seen))
      then seen_after env rest (seen ∪ {[_calculate_chunk_hash env chunk]})
      else seen_after env rest seen
  end.


(** The rows of a batch held as three lists. *)
Definition batch_rows (batch : Batch) : list (str * str * gmap string value) :=
  let '(doc_batch, meta_batch, id_batch) := batch in
  zip3 id_batch doc_batch meta_batch.

(** The three lists of a batch are of one length. *)
Definition batch_aligned (batch : Batch) : Prop :=
  let '(doc_batch, meta_batch, id_batch) := batch in
  length doc_batch = length meta_batch /\ length doc_batch = length id_batch.

(** The configuration fields, which no operation writes. *)
Definition same_config (vs vs' : VectorStore.VectorStore) : Prop :=
  chunk_size vs' = chunk_size vs
  /\ chunk_overlap vs' = chunk_overlap vs
  /\ batch_size vs' = batch_size vs.

End IndexSpec.
Import IndexSpec.

(* ===================================================================== *)
(** * What a search keeps *)
(* ===================================================================== *)

Module SearchSpec.

(** The hits for the rows of an answer that reach the threshold, in the
    order of the rows. *)
Definition qualifying_hits (rows : list (gmap string value * Q * str))
    (similarity_threshold : Q) : list SearchResult :=
  List.map (fun row => make_result row.1.1 row.2 (score row.1.2))
    (List.filter (fun row => Qle_bool similarity_threshold (score row.1.2)) rows).

(** Each of the three columns of the answer has a first row. *)
Definition has_rows (results : QueryResult) : Prop :=
  metadatas results <> [] /\ distances results <> [] /\ documents results <> [].

(** The distance at which [1.0 + distance] is zero. *)
Definition divides_by_zero (row : gmap string value * Q * str) : Prop :=
  (1 + row.1.2 == 0)%Q.

End SearchSpec.
Import SearchSpec.

(* ===================================================================== *)
(** * Sending a long answer: [main_message_router] *)
(* ===================================================================== *)

Module Router.

(** [max_length = 4096]. *)
Definition max_length : nat := 4096.

(** [range(0, stop, step)] for a positive step: the multiples of [step]
    below [stop]. *)
Definition py_range (stop step : nat) : list nat :=
  List.map (fun k => (k * step)%nat) (seq 0 ((stop + step - 1) / step)).

(** The texts passed to [reply_text], one per round of
    [for i in range(0, len(answer), max_length)]: [answer[i:i+max_length]]. *)
Definition answer_parts (answer : str) : list str :=
  List.map (fun i => py_slice answer (Z.of_nat i) (Z.of_nat (i + max_length)))
    (py_range (length answer) max_length).

End Router.
Import Router.

(* ===================================================================== *)
(** * Stripped texts *)
(* ===================================================================== *)

Module StripSpec.

(** The text does not begin with whitespace. *)
Definition starts_clean (s : str) : Prop :=
  match s with
  | [] => True
  | c :: _ => isspace c = false
  end.

(** The text neither begins nor ends with whitespace. *)
Definition no_outer_whitespace (s : str) : Prop :=
  starts_clean s /\ starts_clean (rev s).

(** The text consists of whitespace only (the empty text included). *)
Definition blank (s : str) : Prop := Forall (fun c => isspace c = true) s.

End StripSpec.
Import StripSpec.

(* ===================================================================== *)
(** * OCR: [_evaluate_ocr_quality] and [_extract_text_ocr] *)
(* ===================================================================== *)

Module Ocr.

(** [min(a, b)] of two numbers. *)
Definition qmin (a b : Q) : Q := if Qle_bool a b then a else b.

Definition ratio (a b : nat) : Q := (inject_Z (Z.of_nat a) / inject_Z (Z.of_nat b))%Q.

(** The quality of an OCR text, with the weights 0.4, 0.3 and 0.3 as exact
    fractions. *)
Definition _evaluate_ocr_quality (text : str) : Q :=
  if negb (truthy text) then 0%Q
  else
    let cleaned := remove_whitespace text in
    if (length cleaned =? 0)%nat then 0%Q
    else
      let alphanumeric := List.filter is_alphanumeric cleaned in
      let char_ratio := ratio (length alphanumeric) (length cleaned) in
      let words := split text in
      let avg_word_length :=
        if truthy words then ratio (sum_lengths words) (length words) else 0%Q in
      let quality :=
        (char_ratio * (4 # 10)
         + qmin (ratio (length words) 100) 1 * (3 # 10)
         + qmin (avg_word_length / 8) 1 * (3 # 10))%Q in
      qmin quality 1.

(** [self.default_dpi], [self.fallback_dpi] and [self.psm_modes]. *)
Definition default_dpi : Z := 200.
Definition fallback_dpi : Z := 300.
Definition psm_modes : list Z := [6; 3; 8].

Section Tools.

Context {Image : Type}.

(** The two library calls of the OCR path: rendering the page at a
    resolution, and recognising the text of an image under a
    page-segmentation mode. Either may raise. *)
Record OcrTools : Type := {
  convert_from_path : Z -> outcome (list Image);
  image_to_string : Image -> Z -> outcome str
}.

(** The loop over [self.psm_modes] for one image, with the best text and
    quality so far. *)
Fixpoint try_psm_modes (tools : OcrTools) (image : Image) (modes : list Z)
    (best_text : str) (best_quality : Q) : str * Q :=
  match modes with
  | [] => (best_text, best_quality)
  | psm :: rest =>
      match image_to_string tools image psm with
      | Ret text =>
          let quality := _evaluate_ocr_quality text in
          if negb (Qle_bool quality best_quality)
          then try_psm_modes tools image rest text quality
          else try_psm_modes tools image rest best_text best_quality
      | Raise _ => try_psm_modes tools image rest best_text best_quality
      end
  end.

(** The loop over the resolutions. A rendering that fails or gives no image
    is skipped; otherwise the first image is used. Closing the image is
    taken to succeed, so the outer handler of the source is not entered. *)
Fixpoint try_dpis (tools : OcrTools) (dpis : list Z) (best_text : str)
    (best_quality : Q) : str * Q :=
  match dpis with
  | [] => (best_text, best_quality)
  | dpi :: rest =>
      let images := or_else (convert_from_path tools dpi) [] in
      match images with
      | [] => try_dpis tools rest best_text best_quality
      | image :: _ =>
          let best := try_psm_modes tools image psm_modes best_text best_quality in
          try_dpis tools rest best.1 best.2
      end
  end.

Definition _extract_text_ocr (tools : OcrTools) : str :=
  (try_dpis tools [default_dpi; fallback_dpi] [] 0%Q).1.

(** The texts recognised for one image under the given modes, in order. *)
Fixpoint image_outputs (tools : OcrTools) (image : Image) (modes : list Z) : list str :=
  match modes with
  | [] => []
  | psm :: rest =>
      match image_to_string tools image psm with
      | Ret text => text :: image_outputs tools image rest
      | Raise _ => image_outputs tools image rest
      end
  end.

(** All texts recognised for the given resolutions, in order. *)
Fixpoint dpi_outputs (tools : OcrTools) (dpis : list Z) : list str :=
  match dpis with
  | [] => []
  | dpi :: rest =>
      match or_else (convert_from_path tools dpi) [] with
      | [] => dpi_outputs tools rest
      | image :: _ => image_outputs tools image psm_modes ++ dpi_outputs tools rest
      end
  end.

Definition ocr_outputs (tools : OcrTools) : list str :=
  dpi_outputs tools [default_dpi; fallback_dpi].

End Tools.

Arguments OcrTools Image : clear implicits.

End Ocr.
Import Ocr.

Module OcrSamples.

(** A page whose rendering fails at 200 dpi and gives one image at 300 dpi;
    on that image mode 6 recognises only blanks, mode 3 fails and mode 8
    recognises ["Bild 1"]. Images are numbered. *)
Definition scanned_page : OcrTools nat :=
  {| convert_from_path := fun dpi =>
       if dpi =? 300 then Ret [0%nat] else Raise (Exception "pdf2image");
     image_to_string := fun _ psm =>
       if psm =? 6 then Ret (py "  ")
       else if psm =? 8 then Ret (py "Bild 1")
       else Raise (Exception "pytesseract") |}.

End OcrSamples.
Import OcrSamples.

(* ===================================================================== *)
(** * Facts about strings *)
(* ===================================================================== *)

Section StringFacts.

Lemma isspace_space : isspace space = true.
Proof. reflexivity. Qed.

Lemma is_word_cons (c : char) (w : str) :
  isspace c = false -> Forall (fun c => isspace c = false) w -> is_word (c :: w).
Proof. intros Hc Hw. split; [discriminate | by constructor]. Qed.

(** Every element of [s.split()] is a word. *)
Lemma split_words (s : str) : Forall is_word (split s).
Proof.
  induction s as [|c s' IH]; [constructor|].
  cbn [split]. destruct (isspace c) eqn:Hc; [exact IH|].
  destruct s' as [|d s''].
  - repeat constructor; [discriminate | done].
  - destruct (isspace d) eqn:Hd.
    + constructor; [|exact IH]. apply is_word_cons; [done | constructor].
    + destruct (split (d :: s'')) as [|w ws]; cbn [cons_head].
      * repeat constructor; [discriminate | done].
      * inversion IH as [|? ? [_ Hw] Hws]; subst.
        constructor; [|done]. by apply is_word_cons.
Qed.

Lemma split_cons_cons (c d : char) (s : str) :
  split (c :: d :: s) =
  if isspace c then split (d :: s)
  else if isspace d then [c] :: split (d :: s)
  else cons_head c (split (d :: s)).
Proof. reflexivity. Qed.

(** A word followed by the end or by whitespace is split off whole. *)
Lemma split_word_app (w r : str) :
  is_word w ->
  match r with [] => True | c :: _ => isspace c = true end ->
  split (w ++ r) = w :: split r.
Proof.
  intros [Hne Hw] Hr. induction w as [|c w' IH]; [done|].
  inversion Hw as [|? ? Hc Hw']; subst.
  destruct w' as [|d w''].
  - destruct r as [|e r'].
    + cbn. by rewrite Hc.
    + change ([c] ++ e :: r') with (c :: e :: r').
      by rewrite split_cons_cons, Hc, Hr.
  - inversion Hw' as [|? ? Hd _]; subst.
    change ((c :: d :: w'') ++ r) with (c :: d :: (w'' ++ r)).
    rewrite split_cons_cons, Hc, Hd.
    change (d :: w'' ++ r) with ((d :: w'') ++ r).
    rewrite IH; [done | discriminate | done].
Qed.

(** Splitting what [" ".join] built from words gives the words back. *)
Lemma split_join_words (ws : list str) :
  Forall is_word ws -> split (join [space] ws) = ws.
Proof.
  induction ws as [|w ws' IH]; intros Hws; [done|].
  inversion Hws as [|? ? Hw Hws']; subst.
  destruct ws' as [|w2 ws''].
  - cbn [join]. rewrite <- (app_nil_r w) at 1. by rewrite split_word_app.
  - change (join [space] (w :: w2 :: ws''))
      with (w ++ space :: join [space] (w2 :: ws'')).
    rewrite split_word_app; [|done|reflexivity].
    change (split (space :: join [space] (w2 :: ws'')))
      with (split (join [space] (w2 :: ws''))).
    by rewrite IH.
Qed.

(** A slice between two indices of the list is a [take] of a [drop]. *)
Lemma py_slice_in_range {A : Type} (l : list A) (a b : nat) :
  (a <= b <= length l)%nat ->
  py_slice l (Z.of_nat a) (Z.of_nat b) = take (b - a) (drop a l).
Proof.
  intros H. unfold py_slice, slice_index.
  destruct (Z.ltb_spec (Z.of_nat a) 0); [lia|].
  destruct (Z.ltb_spec (Z.of_nat b) 0); [lia|].
  rewrite !Z.min_l by lia.
  replace (Z.to_nat (Z.of_nat b - Z.of_nat a)) with (b - a)%nat by lia.
  by rewrite Nat2Z.id.
Qed.

End StringFacts.

(* ===================================================================== *)
(** * The chunker *)
(* ===================================================================== *)

Section ChunkerFacts.

Lemma split_loop_step (fuel : nat) (cs ov : Z) (words : list str) (start : Z)
    (chunks : list str) :
  split_loop (S fuel) cs ov words start chunks =
  let n := Z.of_nat (length words) in
  if start <? n then
    let end_ := Z.min (start + cs) n in
    let chunks' := chunks ++ [join [space] (py_slice words start end_)] in
    if end_ - ov >=? n then Some chunks'
    else split_loop fuel cs ov words (end_ - ov) chunks'
  else Some chunks.
Proof. reflexivity. Qed.

(** With a positive overlap the next window start is always before the end
    of the text, and with an overlap of at least the chunk size the start
    never moves forward: either way a loop that is entered is never left. *)
Lemma split_loop_stalls (cs ov : Z) (words : list str) :
  0 < ov \/ cs <= ov ->
  forall (fuel : nat) (start : Z) (chunks : list str),
    start < Z.of_nat (length words) ->
    split_loop fuel cs ov words start chunks = None.
Proof.
  intros Hov fuel. induction fuel as [|fuel IH]; intros start chunks Hlt; [done|].
  rewrite split_loop_step. cbv zeta.
  destruct (Z.ltb_spec start (Z.of_nat (length words))); [|lia].
  rewrite Z.geb_leb.
  destruct (Z.leb_spec (Z.of_nat (length words))
              (Z.min (start + cs) (Z.of_nat (length words)) - ov)); [lia|].
  apply IH. lia.
Qed.

(** Without overlap and with a positive chunk size the loop started at word
    [k] ends within as many steps as there are words left, and the chunks
    it adds hold exactly the words from [k] on. *)
Lemma split_loop_no_overlap (cs : Z) (words : list str) :
  0 < cs ->
  Forall is_word words ->
  forall (fuel k : nat) (chunks : list str),
    (k < length words)%nat ->
    (length words - k <= fuel)%nat ->
    exists added : list str,
      split_loop fuel cs 0 words (Z.of_nat k) chunks = Some (chunks ++ added)
      /\ concat (List.map split added) = drop k words.
Proof.
  intros Hcs Hwords fuel.
  induction fuel as [|fuel IH]; intros k chunks Hk Hfuel; [lia|].
  rewrite split_loop_step. cbv zeta.
  destruct (Z.ltb_spec (Z.of_nat k) (Z.of_nat (length words))); [|lia].
  set (e := Z.min (Z.of_nat k + cs) (Z.of_nat (length words))).
  assert (exists m : nat, e = Z.of_nat m /\ (k < m <= length words)%nat)
    as (m & He & Hke) by (exists (Z.to_nat e); subst e; lia).
  clearbody e. subst e.
  assert (Hchunk : split (join [space] (py_slice words (Z.of_nat k) (Z.of_nat m)))
                   = take (m - k) (drop k words)).
  { rewrite py_slice_in_range by lia.
    apply split_join_words.
    apply Forall_take, Forall_drop, Hwords. }
  rewrite Z.sub_0_r, Z.geb_leb.
  destruct (Z.leb_spec (Z.of_nat (length words)) (Z.of_nat m)) as [Hge|Hlt].
  - exists [join [space] (py_slice words (Z.of_nat k) (Z.of_nat m))].
    split; [reflexivity|].
    cbn [List.map concat]. rewrite Hchunk, app_nil_r.
    apply take_ge. rewrite length_drop. lia.
  - destruct (IH m (chunks ++ [join [space] (py_slice words (Z.of_nat k) (Z.of_nat m))]))
      as (added & Hrun & Hcat); [lia|lia|].
    rewrite Hrun.
    exists (join [space] (py_slice words (Z.of_nat k) (Z.of_nat m)) :: added).
    split; [by rewrite <- app_assoc|].
    rewrite map_cons, concat_cons, Hchunk, Hcat.
    replace (drop m words) with (drop (m - k) (drop k words))
      by (rewrite drop_drop; f_equal; lia).
    apply take_drop.
Qed.

(** C1. For every text with more words than [chunk_size] and every
    configuration with [0 < overlap < chunk_size], the call of
    [_split_text_into_chunks] does not terminate: after a window that ends
    at the last word the next start is [len(words) - overlap], which is
    still before the end, so the same last chunk is appended for ever. The
    claim of termination fails on the whole of its domain. *)
Theorem split_text_into_chunks_never_returns (cs ov : Z) (text : str) :
  0 < ov -> ov < cs -> cs < Z.of_nat (length (split text)) ->
  never_returns (fun fuel => _split_text_into_chunks fuel cs ov text).
Proof.
  intros Hov Hcs Hlen fuel. unfold _split_text_into_chunks.
  destruct (Z.leb_spec (Z.of_nat (length (split text))) cs); [lia|].
  apply split_loop_stalls; [left|]; lia.
Qed.

Lemma split_text_into_chunks_never_returns_witness :
  0 < 1 /\ 1 < 3 /\ 3 < Z.of_nat (length (split (py "a b c d")))
  /\ never_returns (fun fuel => _split_text_into_chunks fuel 3 1 (py "a b c d")).
Proof.
  assert (H1 : 0 < 1) by lia.
  assert (H2 : 1 < 3) by lia.
  assert (H3 : 3 < Z.of_nat (length (split (py "a b c d")))) by (vm_compute; reflexivity).
  exact (conj H1 (conj H2 (conj H3
    (split_text_into_chunks_never_returns 3 1 (py "a b c d") H1 H2 H3)))).
Defined.

(** C5, as the code has it. With [overlap = 0] and a chunk size of at
    least one, [_split_text_into_chunks] returns (fuel for one step per
    word is enough), and the word sequences of its chunks, concatenated in
    order, are the word sequence of the text. *)
Theorem chunks_without_overlap_rebuild_words (cs : Z) (text : str) (fuel : nat) :
  0 < cs ->
  (length (split text) <= fuel)%nat ->
  exists chunks : list str,
    _split_text_into_chunks fuel cs 0 text = Some chunks
    /\ concat (List.map split chunks) = split text.
Proof.
  intros Hcs Hfuel. unfold _split_text_into_chunks.
  destruct (Z.leb_spec (Z.of_nat (length (split text))) cs) as [Hle|Hgt].
  - exists [text]. split; [done|]. cbn. apply app_nil_r.
  - destruct (split_loop_no_overlap cs (split text) Hcs (split_words text) fuel 0 [])
      as (added & Hrun & Hcat); [lia|lia|].
    exists added. split; [exact Hrun | exact Hcat].
Qed.

Lemma chunks_without_overlap_rebuild_words_witness :
  0 < 2 /\ (length (split (py "a b c d e")) <= 5)%nat
  /\ exists chunks : list str,
       _split_text_into_chunks 5 2 0 (py "a b c d e") = Some chunks
       /\ concat (List.map split chunks) = split (py "a b c d e").
Proof.
  assert (H1 : 0 < 2) by lia.
  assert (H2 : (length (split (py "a b c d e")) <= 5)%nat) by (vm_compute; lia).
  exact (conj H1 (conj H2
    (chunks_without_overlap_rebuild_words 2 (py "a b c d e") 5 H1 H2))).
Defined.

(** C5 as stated fails for [chunk_size = 0]: on the one-word text ["a"] the
    window [words[0:0]] is empty, the start stays at 0, and the call never
    returns any chunks. *)
Lemma chunk_size_zero_never_returns :
  never_returns (fun fuel => _split_text_into_chunks fuel 0 0 (py "a")).
Proof.
  intros fuel. unfold _split_text_into_chunks.
  change (split (py "a")) with [py "a"].
  change (Z.of_nat (length [py "a"]) <=? 0) with false. cbv iota.
  apply split_loop_stalls; [right; lia | cbn; lia].
Qed.

Example split_example :
  split (py "  the quick  brown fox ")
  = List.map py ["the"; "quick"; "brown"; "fox"]%string.
Proof. vm_compute. reflexivity. Qed.

Example chunks_example :
  _split_text_into_chunks 5 2 0 (py "a b c d e")
  = Some (List.map py ["a b"; "c d"; "e"]%string).
Proof. vm_compute. reflexivity. Qed.

End ChunkerFacts.

(* ===================================================================== *)
(** * The extractor *)
(* ===================================================================== *)

Section ExtractorFacts.

(** C7. When the native text and the best OCR text both fail the
    sufficiency check, the page's result is the native text if it is not
    empty, and the OCR text (empty or not) otherwise. *)
Theorem insufficient_page_prefers_native (native ocr : str) :
  _is_text_sufficient native = false ->
  _is_text_sufficient ocr = false ->
  let page := {| extract_text_normal := Ret native; extract_text_ocr := Ret ocr |} in
  (native <> [] -> _process_page_async page = Ret (Some native))
  /\ (native = [] -> _process_page_async page = Ret (Some ocr)).
Proof.
  intros Hnative Hocr page.
  unfold _process_page_async, process_page_body, page; cbn.
  rewrite Hnative, Hocr.
  split; intros H.
  - destruct native; [done | reflexivity].
  - subst native. reflexivity.
Qed.

Lemma insufficient_page_prefers_native_witness :
  _is_text_sufficient (py "Seite 3") = false
  /\ _is_text_sufficient (py "5eite E") = false
  /\ _process_page_async
       {| extract_text_normal := Ret (py "Seite 3");
          extract_text_ocr := Ret (py "5eite E") |}
     = Ret (Some (py "Seite 3")).
Proof.
  assert (H1 : _is_text_sufficient (py "Seite 3") = false) by reflexivity.
  assert (H2 : _is_text_sufficient (py "5eite E") = false) by reflexivity.
  refine (conj H1 (conj H2 _)).
  apply (insufficient_page_prefers_native (py "Seite 3") (py "5eite E") H1 H2).
  discriminate.
Defined.

Lemma process_page_never_raises (p : Page) :
  exists r : option str, _process_page_async p = Ret r.
Proof.
  unfold _process_page_async.
  destruct (process_page_body p); cbn; eauto.
Qed.

Lemma process_page_raising (p : Page) (e : exn) :
  process_page_body p = Raise e -> _process_page_async p = Ret None.
Proof. unfold _process_page_async. by intros ->. Qed.

Lemma collect_paragraphs_app (l1 l2 : list (outcome (option str))) :
  collect_paragraphs (l1 ++ l2) = collect_paragraphs l1 ++ collect_paragraphs l2.
Proof.
  induction l1 as [|[[r|]|e] l1 IH]; cbn [app collect_paragraphs]; try done.
  destruct (truthy r && (0 <? length (strip r))%nat); [|done].
  by rewrite IH.
Qed.

(** The loop skips an entry that is an exception object. *)
Lemma collect_paragraphs_skips_exception (l1 l2 : list (outcome (option str))) (e : exn) :
  collect_paragraphs (l1 ++ Raise e :: l2) = collect_paragraphs (l1 ++ l2).
Proof. by rewrite !collect_paragraphs_app. Qed.

Lemma collect_paragraphs_not_extractable (pages : list Page) :
  Forall (fun p => ~ extractable p) pages ->
  collect_paragraphs (gather (List.map _process_page_async pages)) = [].
Proof.
  unfold gather. induction 1 as [|p pages Hp _ IH]; [done|].
  cbn [List.map collect_paragraphs].
  destruct (_process_page_async p) as [[r|]|e] eqn:Hr; try done.
  destruct (strip r) as [|c rest] eqn:Hs.
  - by rewrite andb_false_r.
  - exfalso. apply Hp. exists r. by rewrite Hs.
Qed.

(** C8. [extract_paragraphs_from_pdf] always returns a list: whatever
    opening the file gives and whatever the pages do. A page whose
    processing raises adds nothing to the output, which is the output of
    the document without that page. A document none of whose pages has
    extractable text, and a file that cannot be opened, give the empty
    list. *)
Theorem extract_paragraphs_never_raises :
  (forall pdf : outcome (list Page),
     exists paragraphs : list str, extract_paragraphs_from_pdf pdf = Ret paragraphs)
  /\ (forall (before after : list Page) (p : Page) (e : exn),
        process_page_body p = Raise e ->
        extract_paragraphs_from_pdf (Ret (before ++ p :: after))
        = extract_paragraphs_from_pdf (Ret (before ++ after)))
  /\ (forall pages : list Page,
        Forall (fun p => ~ extractable p) pages ->
        extract_paragraphs_from_pdf (Ret pages) = Ret [])
  /\ (forall e : exn, extract_paragraphs_from_pdf (Raise e) = Ret []).
Proof.
  repeat split.
  - intros [pages|e]; cbn; eauto.
  - intros before after p e Hp. cbn. f_equal. unfold gather.
    rewrite !List.map_app, !collect_paragraphs_app. cbn [List.map collect_paragraphs].
    by rewrite (process_page_raising p e Hp).
  - intros pages Hpages. cbn. f_equal.
    by apply collect_paragraphs_not_extractable.
Qed.

Example extract_three_pages :
  extract_paragraphs_from_pdf
    (Ret [ {| extract_text_normal := Ret (py " Einleitung ");
              extract_text_ocr := Ret [] |};
           {| extract_text_normal := Raise (Exception "PyPDF2");
              extract_text_ocr := Ret (py "nie gelesen") |};
           {| extract_text_normal := Ret [];
              extract_text_ocr := Ret (py "Bild 1") |} ])
  = Ret [py "Einleitung"; py "Bild 1"].
Proof. vm_compute. reflexivity. Qed.

End ExtractorFacts.

(* ===================================================================== *)
(** * Scoring and ranking *)
(* ===================================================================== *)

Section RankingFacts.

Local Open Scope Q_scope.

Lemma score_positive_denominator (d : Q) : 0 <= d -> 0 < 1 + d.
Proof.
  intros Hd. apply Qlt_le_trans with (y := 1 + 0).
  - reflexivity.
  - apply Qplus_le_r, Hd.
Qed.

Lemma score_strictly_decreasing (d1 d2 : Q) :
  0 <= d1 -> d1 < d2 -> score d2 < score d1.
Proof.
  intros H0 Hlt. unfold score, Qdiv. rewrite !Qmult_1_l.
  assert (H1 : 0 < 1 + d1) by (by apply score_positive_denominator).
  assert (H2 : 0 < 1 + d2).
  { apply score_positive_denominator, Qle_trans with d1; [done|].
    by apply Qlt_le_weak. }
  apply (proj1 (Qinv_lt_contravar (1 + d1) (1 + d2) H1 H2)).
  by apply Qplus_lt_r.
Qed.

Lemma score_proper (d1 d2 : Q) : d1 == d2 -> score d1 == score d2.
Proof. intros H. unfold score. by rewrite H. Qed.

(** C9. The score [1/(1+distance)] is 1 at distance 0 and decreases as the
    distance grows over the non-negative distances (strictly so when the
    distance grows strictly); on those distances the code's division never
    raises and yields this score. *)
Theorem score_monotonically_decreasing :
  score 0 == 1
  /\ (forall d1 d2 : Q, 0 <= d1 -> d1 <= d2 -> score d2 <= score d1)
  /\ (forall d1 d2 : Q, 0 <= d1 -> d1 < d2 -> score d2 < score d1)
  /\ (forall d : Q, 0 <= d -> compute_score d = Ret (score d)).
Proof.
  repeat split.
  - intros d1 d2 H0 Hle. apply Qle_lteq in Hle as [Hlt|Heq].
    + by apply Qlt_le_weak, score_strictly_decreasing.
    + rewrite (score_proper d1 d2 Heq). apply Qle_refl.
  - apply score_strictly_decreasing.
  - intros d Hd. unfold compute_score.
    destruct (Qeq_bool (1 + d) 0) eqn:Hz; [|done].
    apply Qeq_bool_eq in Hz. pose proof (score_positive_denominator d Hd) as Hpos.
    rewrite Hz in Hpos. by apply Qlt_irrefl in Hpos.
Qed.

(** ** The sort *)

Lemma insert_by_score_perm (x : SearchResult) (l : list SearchResult) :
  insert_by_score x l ≡ₚ x :: l.
Proof.
  induction l as [|y l IH]; [done|]. cbn [insert_by_score].
  destruct (Qle_bool (similarity_score y) (similarity_score x)); [done|].
  rewrite IH. apply Permutation_swap.
Qed.

Lemma sort_by_score_perm (l : list SearchResult) : sort_by_score l ≡ₚ l.
Proof.
  induction l as [|x l IH]; [done|]. cbn [sort_by_score foldr].
  fold (sort_by_score l). by rewrite insert_by_score_perm, IH.
Qed.

Lemma insert_by_score_ranked (x : SearchResult) (l : list SearchResult) :
  ranked l -> ranked (insert_by_score x l).
Proof.
  unfold ranked. induction 1 as [|y l Hl IH Hy]; cbn [insert_by_score].
  - repeat constructor.
  - destruct (Qle_bool (similarity_score y) (similarity_score x)) eqn:Hc.
    + apply Qle_bool_iff in Hc.
      constructor; [by constructor|].
      constructor; [done|].
      eapply Forall_impl; [exact Hy|]. intros z Hz. cbn in Hz |- *.
      by apply Qle_trans with (similarity_score y).
    + constructor; [done|].
      rewrite insert_by_score_perm. constructor; [|done].
      destruct (Qlt_le_dec (similarity_score y) (similarity_score x)) as [Hlt|Hle].
      * apply Qlt_le_weak, Qle_bool_iff in Hlt. congruence.
      * done.
Qed.

Lemma sort_by_score_ranked (l : list SearchResult) : ranked (sort_by_score l).
Proof.
  induction l as [|x l IH]; [constructor|].
  cbn [sort_by_score foldr]. by apply insert_by_score_ranked.
Qed.

Lemma ranked_take (n : nat) (l : list SearchResult) : ranked l -> ranked (take n l).
Proof.
  unfold ranked. intros Hl. revert n.
  induction Hl as [|y l Hl IH Hy]; intros [|n]; cbn [take]; try constructor.
  - apply IH.
  - by apply Forall_take.
Qed.

(** In a ranked list a result of strictly larger score stands earlier. *)
Lemma ranked_larger_first (l : list SearchResult) (i j : nat) (a b : SearchResult) :
  ranked l -> l !! i = Some a -> l !! j = Some b ->
  similarity_score b < similarity_score a -> (i < j)%nat.
Proof.
  unfold ranked. intros Hl. revert i j.
  induction Hl as [|y l Hl IH Hy]; intros i j Hi Hj Hlt; [done|].
  destruct i as [|i], j as [|j]; cbn in Hi, Hj.
  - simplify_eq. by apply Qlt_irrefl in Hlt.
  - lia.
  - simplify_eq. rewrite Forall_forall in Hy.
    assert (Ha : a ∈ l) by (by eapply list_elem_of_lookup_2).
    apply Hy in Ha.
    exfalso. eapply Qlt_not_le; eauto.
  - apply -> Nat.succ_lt_mono. by eapply IH.
Qed.

(** Results of equal score keep the order they had, as with Python's
    [sort]: scores 1, 2, 1, 2 for a, b, c, d give b, d, a, c. *)
Example sort_by_score_is_stable :
  List.map text
    (sort_by_score
       [make_result ∅ (py "a") 1; make_result ∅ (py "b") 2;
        make_result ∅ (py "c") 1; make_result ∅ (py "d") 2])
  = [py "b"; py "d"; py "a"; py "c"].
Proof. vm_compute. reflexivity. Qed.

End RankingFacts.

(* ===================================================================== *)
(** * Search *)
(* ===================================================================== *)

Section SearchFacts.

Local Open Scope Q_scope.

Lemma from_row_score (rows : list (gmap string value * Q * str)) (t : Q)
    (hit : SearchResult) :
  from_row rows t hit -> t <= similarity_score hit.
Proof. by intros (m & d & doc & _ & -> & Ht). Qed.

Lemma from_row_weaken (rows rows' : list (gmap string value * Q * str)) (t : Q)
    (hit : SearchResult) :
  rows ⊆ rows' -> from_row rows t hit -> from_row rows' t hit.
Proof.
  intros Hsub (m & d & doc & Hin & Heq & Ht).
  exists m, d, doc. split; [by apply Hsub | done].
Qed.

(** The filter loop, when it does not raise, adds to the results it was
    given only hits built from rows that reach the threshold. *)
Lemma filter_results_sound (rows : list (gmap string value * Q * str)) (t : Q) :
  forall acc l : list SearchResult,
    filter_results rows t acc = Ret l ->
    exists added : list SearchResult,
      l = acc ++ added /\ Forall (from_row rows t) added.
Proof.
  induction rows as [|[[m d] doc] rows IH]; intros acc l Hrun.
  - injection Hrun as <-. exists []. by rewrite app_nil_r.
  - cbn [filter_results] in Hrun. unfold compute_score in Hrun.
    destruct (Qeq_bool (1 + d) 0); [discriminate|]. cbn in Hrun.
    destruct (Qle_bool t (score d)) eqn:Ht.
    + apply IH in Hrun as (added & -> & Hadded).
      exists (make_result m doc (score d) :: added).
      split; [by rewrite <- app_assoc|].
      constructor.
      * exists m, d, doc. split; [left | split; [done | by apply Qle_bool_iff]].
      * eapply Forall_impl; [exact Hadded|]. intros hit.
        apply from_row_weaken. set_solver.
    + apply IH in Hrun as (added & -> & Hadded).
      exists added. split; [done|].
      eapply Forall_impl; [exact Hadded|]. intros hit.
      apply from_row_weaken. set_solver.
Qed.

Lemma rank_results_sound (results : QueryResult) (n : nat) (t : Q)
    (l : list SearchResult) :
  rank_results results n t = Ret l ->
  Forall (from_row (answer_rows results) t) l /\ ranked l /\ (length l <= n)%nat.
Proof.
  unfold rank_results, answer_rows.
  destruct (metadatas results) as [|ms ?]; [discriminate|].
  destruct (distances results) as [|ds ?]; [discriminate|].
  destruct (documents results) as [|docs ?]; [discriminate|]. cbn.
  destruct (filter_results (zip3 ms ds docs) t []) as [filtered|e] eqn:Hf;
    [|discriminate].
  cbn. intros [= <-].
  apply filter_results_sound in Hf as (added & -> & Hadded). cbn [app].
  split; [|split].
  - apply Forall_take. by rewrite sort_by_score_perm.
  - apply ranked_take, sort_by_score_ranked.
  - rewrite length_take. lia.
Qed.

(** C4. Whatever the backend answers, every result of [search] was built
    from a row of that answer with the score [1/(1+distance)] of the row,
    its score is at least the threshold, the results are in descending
    order of score, and there are at most [n_results] of them. In
    particular no result of a search with threshold 0.9 scores below 0.9. *)
Theorem search_filters_ranks_truncates (env : Env) (vs : VectorStore.VectorStore)
    (query : str) (n_results : nat) (similarity_threshold : Q) :
  let found := search env vs query n_results similarity_threshold in
  Forall (fun hit =>
            exists results : QueryResult,
              collection_query env (collection vs) query (n_results * 2)%nat None
              = Ret results
              /\ from_row (answer_rows results) similarity_threshold hit) found
  /\ Forall (fun hit => similarity_threshold <= similarity_score hit) found
  /\ ranked found
  /\ (length found <= n_results)%nat
  /\ Forall (fun hit => ~ similarity_score hit < 9 # 10)
       (search env vs query n_results (9 # 10)).
Proof.
  assert (Hgen : forall t : Q,
    let found := search env vs query n_results t in
    Forall (fun hit =>
              exists results : QueryResult,
                collection_query env (collection vs) query (n_results * 2)%nat None
                = Ret results
                /\ from_row (answer_rows results) t hit) found
    /\ ranked found /\ (length found <= n_results)%nat).
  { intros t. unfold search.
    destruct (collection_query env (collection vs) query (n_results * 2)%nat None)
      as [results|e]; cbn.
    - destruct (rank_results results n_results t) as [l|e] eqn:Hr; cbn.
      + apply rank_results_sound in Hr as (Hrows & Hranked & Hlen).
        split; [|done].
        eapply Forall_impl; [exact Hrows|]. intros hit Hhit. by exists results.
      + repeat split; [constructor | constructor | lia].
    - repeat split; [constructor | constructor | lia]. }
  intros found.
  destruct (Hgen similarity_threshold) as (Hrows & Hranked & Hlen).
  split; [exact Hrows|]. split; [|split; [exact Hranked|split; [exact Hlen|]]].
  - eapply Forall_impl; [exact Hrows|]. intros hit (results & _ & Hhit).
    by eapply from_row_score.
  - destruct (Hgen (9 # 10)) as (Hrows9 & _ & _).
    eapply Forall_impl; [exact Hrows9|]. intros hit (results & _ & Hhit) Hlt.
    apply from_row_score in Hhit. by eapply Qlt_not_le.
Qed.

End SearchFacts.

(* ===================================================================== *)
(** * Global search *)
(* ===================================================================== *)

Section GlobalSearchFacts.

Local Open Scope Q_scope.

Lemma document_results_length (env : Env) (q pdf_file : str)
    (indexed : outcome VectorStore.VectorStore) :
  (length (document_results env q pdf_file indexed) <= 2)%nat.
Proof.
  unfold document_results. destruct indexed as [vs|e]; [|cbn; lia].
  destruct (truthy _); [|cbn; lia].
  rewrite length_map, length_take. lia.
Qed.

Lemma document_results_source (env : Env) (q pdf_file : str)
    (indexed : outcome VectorStore.VectorStore) (hit : SearchResult) :
  hit ∈ document_results env q pdf_file indexed -> source_pdf hit = Some pdf_file.
Proof.
  unfold document_results. destruct indexed as [vs|e]; [|by intros ?%elem_of_nil].
  destruct (truthy _); [|by intros ?%elem_of_nil].
  intros Hin. apply list_elem_of_In, in_map_iff in Hin as (chunk & <- & _).
  reflexivity.
Qed.

(** C6. In global search every document contributes at most two chunks,
    each tagged with that document; if any chunk was found, the chunks of
    all documents together are sorted by score, largest first, and the
    first four are kept. Hence a chunk that scores 0.9 (the best of a
    document A) stands before every chunk that scores at most 0.4 (any
    chunk of a document B whose best is 0.4) in the list that is kept. *)
Theorem global_search_ranking (env : Env) (user_question : str)
    (pdf_files : list (str * outcome VectorStore.VectorStore)) :
  (forall (pdf_file : str) (indexed : outcome VectorStore.VectorStore),
     (length (document_results env user_question pdf_file indexed) <= 2)%nat
     /\ Forall (fun hit => source_pdf hit = Some pdf_file)
          (document_results env user_question pdf_file indexed))
  /\ match _handle_global_search env user_question pdf_files with
     | NoRelevantInformation =>
         collect_all_results env user_question pdf_files = []
     | BestResults best_results =>
         best_results
         = take 4 (sort_by_score (collect_all_results env user_question pdf_files))
         /\ ranked best_results
         /\ (length best_results <= 4)%nat
         /\ forall (i j : nat) (a b : SearchResult),
              best_results !! i = Some a ->
              best_results !! j = Some b ->
              similarity_score a == 9 # 10 ->
              similarity_score b <= 4 # 10 ->
              (i < j)%nat
     end.
Proof.
  split.
  - intros pdf_file indexed. split; [apply document_results_length|].
    apply Forall_forall. intros hit Hin. by eapply document_results_source.
  - unfold _handle_global_search.
    destruct (collect_all_results env user_question pdf_files) as [|r all] eqn:Hall;
      cbn [truthy negb]; [done|].
    set (best := take 4 (sort_by_score (r :: all))).
    assert (Hranked : ranked best) by apply ranked_take, sort_by_score_ranked.
    split; [done|]. split; [done|]. split.
    + subst best. rewrite length_take. lia.
    + intros i j a b Hi Hj Ha Hb.
      apply (ranked_larger_first best i j a b Hranked Hi Hj).
      rewrite Ha. eapply Qle_lt_trans; [exact Hb|]. reflexivity.
Qed.

End GlobalSearchFacts.

(* ===================================================================== *)
(** * Writing to the index *)
(* ===================================================================== *)

Section IndexFacts.

(** Unfolds the operations of the store monad so that a run on a symbolic
    store computes. *)
Ltac run_store :=
  unfold _reconnect_client, collection_add, client_connect, client_reset,
    time_sleep in *;
  unfold try_catch, mbind, M_bind, bind, mret, M_ret, ret, raise, modify, get,
    run_total in *.

(** C3, as the code has it. [_add_batch] writes at most three times. After
    a failed first or second write it sleeps (1 second, then 2) and tries to
    open a fresh client (whose outcome changes nothing) before the next
    write; a write that succeeds ends the call with [True]; after a failed
    third write the call returns [False] at once, with no sleep and no
    reconnection. *)
Theorem add_batch_retries (env : Env) (documents : list str)
    (metadatas : list (gmap string value)) (ids : list str)
    (vs : VectorStore.VectorStore) :
  let k := add_calls vs in
  let c := reconnect_calls vs in
  let result := fst (_add_batch env documents metadatas ids vs) in
  let events := trace (snd (_add_batch env documents metadatas ids vs)) in
  (add_ok env k = true ->
     result = Ret true /\ events = trace vs ++ [EvAdd true])
  /\ (add_ok env k = false -> add_ok env (S k) = true ->
        result = Ret true
        /\ events = trace vs ++
             [EvAdd false; EvSleep 1; EvReconnect (reconnect_ok env c); EvAdd true])
  /\ (add_ok env k = false -> add_ok env (S k) = false ->
      add_ok env (S (S k)) = true ->
        result = Ret true
        /\ events = trace vs ++
             [EvAdd false; EvSleep 1; EvReconnect (reconnect_ok env c);
              EvAdd false; EvSleep 2; EvReconnect (reconnect_ok env (S c));
              EvAdd true])
  /\ (add_ok env k = false -> add_ok env (S k) = false ->
      add_ok env (S (S k)) = false ->
        result = Ret false
        /\ events = trace vs ++
             [EvAdd false; EvSleep 1; EvReconnect (reconnect_ok env c);
              EvAdd false; EvSleep 2; EvReconnect (reconnect_ok env (S c));
              EvAdd false]).
Proof.
  intros k c result events. subst k c result events.
  unfold _add_batch.
  cbn [seq max_retries add_batch_attempts Nat.ltb Nat.leb Nat.sub]. run_store.
  repeat split; intros;
    repeat match goal with
           | H : add_ok env _ = _ |- _ => rewrite H; clear H; cbn
           | |- context [reconnect_ok env ?n] =>
               destruct (reconnect_ok env n); cbn
           end;
    rewrite <- ?app_assoc; reflexivity.
Qed.

(** C3 as stated fails where it says that a fresh connection is attempted
    once all attempts have failed: with a backend that refuses every write,
    the two connection attempts come before the second and the third write,
    and the call ends on the third failed write. *)
Lemma add_batch_ends_on_last_failed_write :
  fst (_add_batch offline_env [sample_text] [∅] [py "id"] default_store) = Ret false
  /\ trace (snd (_add_batch offline_env [sample_text] [∅] [py "id"] default_store))
     = [EvAdd false; EvSleep 1; EvReconnect true;
        EvAdd false; EvSleep 2; EvReconnect true;
        EvAdd false]
  /\ last (trace (snd (_add_batch offline_env [sample_text] [∅] [py "id"] default_store)))
     = Some (EvAdd false).
Proof. repeat split. Qed.


(** With the backend down, a flush fails after three writes and leaves the
    dedup cache, the persisted chunks and the configuration as they were. *)
Lemma add_batch_backend_down (env : Env) (documents : list str)
    (metadatas : list (gmap string value)) (ids : list str)
    (vs : VectorStore.VectorStore) :
  (forall k : nat, add_ok env k = false) ->
  exists vs' : VectorStore.VectorStore,
    _add_batch env documents metadatas ids vs = (Ret false, vs')
    /\ seen_hashes vs' = seen_hashes vs
    /\ collection vs' = collection vs
    /\ chunk_size vs' = chunk_size vs
    /\ chunk_overlap vs' = chunk_overlap vs
    /\ batch_size vs' = batch_size vs.
Proof.
  intros Hdown. unfold _add_batch.
  cbn [seq max_retries add_batch_attempts Nat.ltb Nat.leb Nat.sub]. run_store.
  rewrite !Hdown. cbn.
  destruct (reconnect_ok env (reconnect_calls vs)); cbn;
    rewrite !Hdown; cbn;
    destruct (reconnect_ok env (S (reconnect_calls vs))); cbn;
    rewrite !Hdown; cbn; eexists; repeat split.
Qed.

Lemma split_text_single_chunk (fuel : nat) (cs ov : Z) (text : str) :
  Z.of_nat (length (split text)) <= cs ->
  _split_text_into_chunks fuel cs ov text = Some [text].
Proof.
  intros H. unfold _split_text_into_chunks.
  by destruct (Z.leb_spec (Z.of_nat (length (split text))) cs); [|lia].
Qed.

(** A one-chunk document whose chunk is new and passes the quality gate,
    added while the backend is down: the call fails, nothing is persisted,
    and the chunk's hash has joined the dedup cache. *)
Lemma add_document_backend_down (env : Env) (fuel : nat) (doc_id text : str)
    (metadata : option (gmap string value)) (vs : VectorStore.VectorStore) :
  Z.of_nat (length (split text)) <= chunk_size vs ->
  _passes_quality_check env text = true ->
  sha1_hexdigest env text ∉ seen_hashes vs ->
  (forall k : nat, add_ok env k = false) ->
  exists vs' : VectorStore.VectorStore,
    add_document env fuel doc_id text metadata vs = Some (false, vs')
    /\ seen_hashes vs' = seen_hashes vs ∪ {[sha1_hexdigest env text]}
    /\ collection vs' = collection vs
    /\ chunk_size vs' = chunk_size vs.
Proof.
  intros Hone Hq Hnew Hdown. unfold add_document.
  rewrite split_text_single_chunk by done.
  cbn [length enumerate seq zip zip_with add_document_loop].
  rewrite Hq. cbn [negb]. unfold _calculate_chunk_hash. run_store.
  rewrite bool_decide_eq_false_2 by done.
  destruct (batch_size vs <=? Z.of_nat (length ([] ++ [text]))).
  - destruct (add_batch_backend_down env ([] ++ [text])
                ([] ++ [chunk_metadata doc_id (_generate_unique_id env doc_id 0) 0 1
                          (sha1_hexdigest env text) metadata])
                ([] ++ [_generate_unique_id env doc_id 0])
                (with_seen_hashes (fun s => s ∪ {[sha1_hexdigest env text]}) vs) Hdown)
      as (vs' & -> & Hseen & Hcoll & Hcs & _).
    exists vs'. by rewrite Hseen, Hcoll, Hcs.
  - cbn [app truthy].
    destruct (add_batch_backend_down env [text]
                [chunk_metadata doc_id (_generate_unique_id env doc_id 0) 0 1
                   (sha1_hexdigest env text) metadata]
                [_generate_unique_id env doc_id 0]
                (with_seen_hashes (fun s => s ∪ {[sha1_hexdigest env text]}) vs) Hdown)
      as (vs' & -> & Hseen & Hcoll & Hcs & _).
    exists vs'. by rewrite Hseen, Hcoll, Hcs.
Qed.

(** A one-chunk document whose chunk's hash is in the dedup cache is
    skipped: the call reports success without touching the backend. *)
Lemma add_document_seen (env : Env) (fuel : nat) (doc_id text : str)
    (metadata : option (gmap string value)) (vs : VectorStore.VectorStore) :
  Z.of_nat (length (split text)) <= chunk_size vs ->
  sha1_hexdigest env text ∈ seen_hashes vs ->
  add_document env fuel doc_id text metadata vs = Some (true, vs).
Proof.
  intros Hone Hseen. unfold add_document.
  rewrite split_text_single_chunk by done.
  cbn [length enumerate seq zip zip_with add_document_loop].
  destruct (_passes_quality_check env text); cbn [negb]; [|done].
  unfold _calculate_chunk_hash. run_store.
  by rewrite bool_decide_eq_true_2 by done.
Qed.

(** C2 fails on the code. When the flush of a batch fails, the hashes of
    its chunks stay in [seen_hashes] although nothing was persisted: the
    hash is added when the chunk is queued, before the write. A later
    [add_document] of the same text, with the backend up again, therefore
    skips the chunk as a duplicate and reports success with the store
    unchanged, so the chunk is never persisted. *)
Theorem failed_flush_leaves_hash_in_seen_hashes (env : Env) (fuel : nat)
    (doc_id text : str) (metadata : option (gmap string value))
    (vs : VectorStore.VectorStore) :
  Z.of_nat (length (split text)) <= chunk_size vs ->
  _passes_quality_check env text = true ->
  sha1_hexdigest env text ∉ seen_hashes vs ->
  (forall k : nat, add_ok env k = false) ->
  exists vs' : VectorStore.VectorStore,
    add_document env fuel doc_id text metadata vs = Some (false, vs')
    /\ sha1_hexdigest env text ∈ seen_hashes vs'
    /\ collection vs' = collection vs
    /\ add_document (recovered env) fuel doc_id text metadata vs' = Some (true, vs').
Proof.
  intros Hone Hq Hnew Hdown.
  destruct (add_document_backend_down env fuel doc_id text metadata vs Hone Hq Hnew Hdown)
    as (vs' & Hrun & Hseen & Hcoll & Hcs).
  assert (Hin : sha1_hexdigest env text ∈ seen_hashes vs').
  { rewrite Hseen. apply elem_of_union. right. by apply elem_of_singleton. }
  exists vs'. split; [exact Hrun|]. split; [exact Hin|].
  split; [exact Hcoll|].
  apply add_document_seen; [by rewrite Hcs | exact Hin].
Qed.

Lemma failed_flush_leaves_hash_in_seen_hashes_witness :
  exists vs' : VectorStore.VectorStore,
    add_document offline_env 0 (py "handbuch.pdf") sample_text None default_store
    = Some (false, vs')
    /\ sha1_hexdigest offline_env sample_text ∈ seen_hashes vs'
    /\ collection vs' = []
    /\ add_document (recovered offline_env) 0 (py "handbuch.pdf") sample_text None vs'
       = Some (true, vs').
Proof.
  apply (failed_flush_leaves_hash_in_seen_hashes offline_env 0 (py "handbuch.pdf")
           sample_text None default_store).
  - vm_compute. discriminate.
  - vm_compute. reflexivity.
  - apply not_elem_of_empty.
  - reflexivity.
Defined.

(** C10. When [client.reset()] raises, [clear_all] returns [False] and the
    dedup cache (and what the backend holds) is as before; the cache is
    emptied only on the path where the reset has returned. *)
Theorem clear_all_failed_reset_keeps_seen_hashes (env : Env)
    (vs : VectorStore.VectorStore) :
  reset_ok env (reset_calls vs) = false ->
  fst (clear_all env vs) = false
  /\ seen_hashes (snd (clear_all env vs)) = seen_hashes vs
  /\ collection (snd (clear_all env vs)) = collection vs.
Proof.
  intros Hfail. unfold clear_all. run_store. rewrite Hfail. by cbn.
Qed.

Lemma clear_all_failed_reset_keeps_seen_hashes_witness :
  reset_ok offline_env
    (reset_calls (with_seen_hashes (fun _ => {[sample_text]}) default_store)) = false
  /\ fst (clear_all offline_env
            (with_seen_hashes (fun _ => {[sample_text]}) default_store)) = false
  /\ seen_hashes (snd (clear_all offline_env
                         (with_seen_hashes (fun _ => {[sample_text]}) default_store)))
     = {[sample_text]}.
Proof.
  assert (H : reset_ok offline_env
    (reset_calls (with_seen_hashes (fun _ => {[sample_text]}) default_store)) = false)
    by reflexivity.
  refine (conj H _).
  destruct (clear_all_failed_reset_keeps_seen_hashes offline_env
              (with_seen_hashes (fun _ => {[sample_text]}) default_store) H)
    as (Hr & Hs & _).
  exact (conj Hr Hs).
Defined.

(** On the other path the reset has succeeded before the cache is touched. *)
Lemma clear_all_after_reset (env : Env) (vs : VectorStore.VectorStore) :
  reset_ok env (reset_calls vs) = true ->
  fst (clear_all env vs) = true
  /\ seen_hashes (snd (clear_all env vs)) = ∅
  /\ collection (snd (clear_all env vs)) = [].
Proof.
  intros Hok. unfold clear_all. run_store. rewrite Hok. by cbn.
Qed.

End IndexFacts.

(* ===================================================================== *)
(** * The theorems at concrete inputs *)
(* ===================================================================== *)

Section Instances.

Local Open Scope Q_scope.

(** The score falls from distance 1/4 to distance 1/2, and the code
    computes the score 0.9 at distance 1/9. *)
Lemma score_monotonically_decreasing_witness :
  score (1 # 2) <= score (1 # 4) /\ compute_score (1 # 9) = Ret (score (1 # 9)).
Proof.
  destruct score_monotonically_decreasing as (_ & Hmono & _ & Hcode).
  split.
  - apply Hmono; unfold Qle; cbn; lia.
  - apply Hcode. unfold Qle; cbn; lia.
Defined.

(** A backend that refuses every write: three writes, sleeps of 1 and 2
    seconds with a connection attempt after each, and [False]. *)
Lemma add_batch_retries_witness :
  fst (_add_batch offline_env [sample_text] [∅] [py "id"] default_store) = Ret false
  /\ trace (snd (_add_batch offline_env [sample_text] [∅] [py "id"] default_store))
     = trace default_store ++
         [EvAdd false; EvSleep 1; EvReconnect true;
          EvAdd false; EvSleep 2; EvReconnect true;
          EvAdd false].
Proof.
  destruct (add_batch_retries offline_env [sample_text] [∅] [py "id"] default_store)
    as (_ & _ & _ & Hall).
  exact (Hall eq_refl eq_refl eq_refl).
Defined.

(** Three pages: the second raises and is left out; a document whose only
    page is blank gives the empty list. *)
Lemma extract_paragraphs_never_raises_witness :
  extract_paragraphs_from_pdf
    (Ret [ {| extract_text_normal := Ret (py " Einleitung ");
              extract_text_ocr := Ret [] |};
           {| extract_text_normal := Raise (Exception "PyPDF2");
              extract_text_ocr := Ret (py "nie gelesen") |};
           {| extract_text_normal := Ret [];
              extract_text_ocr := Ret (py "Bild 1") |} ])
  = extract_paragraphs_from_pdf
      (Ret [ {| extract_text_normal := Ret (py " Einleitung ");
                extract_text_ocr := Ret [] |};
             {| extract_text_normal := Ret [];
                extract_text_ocr := Ret (py "Bild 1") |} ])
  /\ extract_paragraphs_from_pdf
       (Ret [ {| extract_text_normal := Ret (py "   ");
                 extract_text_ocr := Ret [] |} ])
     = Ret [].
Proof.
  destruct extract_paragraphs_never_raises as (_ & Hskip & Hnone & _).
  split.
  - apply (Hskip [ {| extract_text_normal := Ret (py " Einleitung ");
                      extract_text_ocr := Ret [] |} ]
                 [ {| extract_text_normal := Ret [];
                      extract_text_ocr := Ret (py "Bild 1") |} ]
                 {| extract_text_normal := Raise (Exception "PyPDF2");
                    extract_text_ocr := Ret (py "nie gelesen") |}
                 (Exception "PyPDF2")).
    reflexivity.
  - apply Hnone. constructor; [|constructor].
    intros (result & Hrun & Hblank).
    vm_compute in Hrun. injection Hrun as <-. by apply Hblank.
Defined.

(** Documents B (best score 0.4) and A (best score 0.9), searched in this
    order: A's best chunk comes first, then B's chunk, then A's other
    chunk. *)
Lemma global_search_ranking_witness :
  exists a b : SearchResult,
    _handle_global_search two_documents_env (py "frage")
      [(py "B.pdf", Ret default_store); (py "A.pdf", Ret default_store)]
    = BestResults
        [a; b; set_source_pdf (py "A.pdf") (make_result ∅ (py "a-weak") (score 4))]
    /\ source_pdf a = Some (py "A.pdf") /\ similarity_score a == 9 # 10
    /\ source_pdf b = Some (py "B.pdf") /\ similarity_score b <= 4 # 10
    /\ (0 < 1)%nat.
Proof.
  exists (set_source_pdf (py "A.pdf") (make_result ∅ (py "a-best") (score (1 # 9)))),
         (set_source_pdf (py "B.pdf") (make_result ∅ (py "b-best") (score (3 # 2)))).
  pose proof (proj2 (global_search_ranking two_documents_env (py "frage")
    [(py "B.pdf", Ret default_store); (py "A.pdf", Ret default_store)])) as Hrank.
  assert (Hrun : _handle_global_search two_documents_env (py "frage")
            [(py "B.pdf", Ret default_store); (py "A.pdf", Ret default_store)]
          = BestResults
              [set_source_pdf (py "A.pdf") (make_result ∅ (py "a-best") (score (1 # 9)));
               set_source_pdf (py "B.pdf") (make_result ∅ (py "b-best") (score (3 # 2)));
               set_source_pdf (py "A.pdf") (make_result ∅ (py "a-weak") (score 4))])
    by (vm_compute; reflexivity).
  destruct Hrank as (_ & _ & _ & Horder).
  assert (Ha : similarity_score
                 (set_source_pdf (py "A.pdf") (make_result ∅ (py "a-best") (score (1 # 9))))
               == 9 # 10) by reflexivity.
  assert (Hb : similarity_score
                 (set_source_pdf (py "B.pdf") (make_result ∅ (py "b-best") (score (3 # 2))))
               <= 4 # 10) by (vm_compute; discriminate).
  refine (conj Hrun (conj eq_refl (conj Ha (conj eq_refl (conj Hb _))))).
  apply (Horder 0%nat 1%nat
           (set_source_pdf (py "A.pdf") (make_result ∅ (py "a-best") (score (1 # 9))))
           (set_source_pdf (py "B.pdf") (make_result ∅ (py "b-best") (score (3 # 2)))));
    [vm_compute; reflexivity | vm_compute; reflexivity | exact Ha | exact Hb].
Defined.

End Instances.

(* ===================================================================== *)
(** * More on the chunker *)
(* ===================================================================== *)

Section ChunkerLayout.

(** With an overlap of at most zero that is below the chunk size, every
    step moves the start forward by at least one word, so the loop ends
    within as many steps as there are words from the start on. *)
Lemma split_loop_returns (cs ov : Z) (words : list str) :
  ov <= 0 -> ov < cs ->
  forall (fuel : nat) (start : Z) (chunks : list str),
    (Z.to_nat (Z.of_nat (length words) - start) < fuel)%nat ->
    exists result : list str,
      split_loop fuel cs ov words start chunks = Some result.
Proof.
  intros Hov Hcs fuel.
  induction fuel as [|fuel IH]; intros start chunks Hfuel; [lia|].
  rewrite split_loop_step. cbv zeta.
  destruct (Z.ltb_spec start (Z.of_nat (length words))); [|eauto].
  rewrite Z.geb_leb.
  destruct (Z.leb_spec (Z.of_nat (length words))
              (Z.min (start + cs) (Z.of_nat (length words)) - ov)); [eauto|].
  apply IH. lia.
Qed.

(** The chunker returns exactly when the text fits into one chunk, or has
    no words, or the overlap is at most zero and below the chunk size; in
    those cases one unit of fuel per word and one more are enough. *)
Theorem split_text_into_chunks_returns_iff (cs ov : Z) (text : str) :
  (exists (fuel : nat) (chunks : list str),
     _split_text_into_chunks fuel cs ov text = Some chunks)
  <-> (Z.of_nat (length (split text)) <= cs
       \/ split text = []
       \/ (ov <= 0 /\ ov < cs)).
Proof.
  unfold _split_text_into_chunks. split.
  - intros (fuel & chunks & Hrun).
    destruct (Z.leb_spec (Z.of_nat (length (split text))) cs) as [Hle|Hgt]; [by left|].
    right.
    destruct (split text) as [|w ws] eqn:Hw; [by left|]. right.
    destruct (Z.le_gt_cases ov 0) as [Hov|Hov];
      [destruct (Z.lt_ge_cases ov cs) as [Hcs|Hcs]; [done|]|].
    + rewrite (split_loop_stalls cs ov (w :: ws)) in Hrun;
        [done | by right | cbn [length]; lia].
    + rewrite (split_loop_stalls cs ov (w :: ws)) in Hrun;
        [done | left; lia | cbn [length]; lia].
  - intros H.
    destruct (Z.leb_spec (Z.of_nat (length (split text))) cs) as [Hle|Hgt];
      [by exists 0%nat, [text]|].
    destruct H as [H|[H|[Hov Hcs]]]; [lia| |].
    + exists 1%nat, []. by rewrite H.
    + destruct (split_loop_returns cs ov (split text) Hov Hcs
                  (S (S (length (split text)))) 0 []) as (result & Hrun); [lia|].
      by exists (S (S (length (split text)))), result.
Qed.

Lemma ceil_div_small (a c : nat) : (1 <= a <= c)%nat -> ((a - 1) / c = 0)%nat.
Proof. intros H. apply Nat.div_small. lia. Qed.

Lemma ceil_div_step (a c : nat) :
  (0 < c < a)%nat -> ((a - 1) / c = S ((a - c - 1) / c))%nat.
Proof.
  intros H. replace (a - 1)%nat with ((a - c - 1) + 1 * c)%nat by lia.
  rewrite Nat.div_add by lia. lia.
Qed.

Lemma map_seq_S {A : Type} (g : nat -> A) (n : nat) :
  List.map g (seq 0 (S n)) = g 0%nat :: List.map (fun j => g (S j)) (seq 0 n).
Proof. cbn [seq List.map]. by rewrite <- seq_shift, List.map_map. Qed.

(** Without overlap the loop started at word [k] adds the windows of [c]
    words at [k], [k + c], [k + 2c], ... up to the end of the text. *)
Lemma split_loop_windows (c : nat) (words : list str) :
  (0 < c)%nat ->
  forall (fuel k : nat) (chunks : list str),
    (k < length words)%nat ->
    (length words - k <= fuel)%nat ->
    split_loop fuel (Z.of_nat c) 0 words (Z.of_nat k) chunks
    = Some (chunks ++
            List.map (fun j => join [space] (take c (drop (k + j * c) words)))
              (seq 0 (S ((length words - k - 1) / c)))).
Proof.
  intros Hc fuel.
  induction fuel as [|fuel IH]; intros k chunks Hk Hfuel; [lia|].
  rewrite split_loop_step. cbv zeta.
  destruct (Z.ltb_spec (Z.of_nat k) (Z.of_nat (length words))); [|lia].
  rewrite Z.sub_0_r, Z.geb_leb.
  destruct (Z.leb_spec (Z.of_nat (length words))
              (Z.min (Z.of_nat k + Z.of_nat c) (Z.of_nat (length words))))
    as [Hlast|Hmore].
  - rewrite Z.min_r by lia.
    rewrite py_slice_in_range by lia.
    rewrite ceil_div_small by lia. cbn [seq List.map].
    rewrite Nat.add_0_r.
    rewrite (take_ge (drop k words) (length words - k)) by (rewrite length_drop; lia).
    rewrite (take_ge (drop k words) c) by (rewrite length_drop; lia).
    reflexivity.
  - rewrite Z.min_l by lia.
    replace (Z.of_nat k + Z.of_nat c) with (Z.of_nat (k + c)) by lia.
    rewrite py_slice_in_range by lia.
    rewrite IH by lia.
    rewrite (ceil_div_step (length words - k) c) by lia.
    rewrite <- app_assoc. f_equal.
    replace (length words - (k + c) - 1)%nat with (length words - k - c - 1)%nat by lia.
    rewrite (map_seq_S (fun j => join [space] (take c (drop (k + j * c) words)))).
    cbn [app]. replace (k + c - k)%nat with c by lia.
    rewrite Nat.add_0_r. do 2 apply f_equal.
    apply List.map_ext. intros j. do 3 f_equal. lia.
Qed.

(** Without overlap, a text of more words than the chunk size [c >= 1] is
    cut into [ceil(n / c)] chunks; chunk number [j] is the words
    [j * c .. j * c + c - 1] of the text joined by single spaces, so every
    chunk but the last has exactly [c] words. *)
Theorem chunks_without_overlap_layout (c : nat) (text : str) (fuel : nat) :
  (0 < c < length (split text))%nat ->
  (length (split text) <= fuel)%nat ->
  _split_text_into_chunks fuel (Z.of_nat c) 0 text
  = Some (List.map (fun j => join [space] (take c (drop (j * c) (split text))))
            (seq 0 ((length (split text) + c - 1) / c))).
Proof.
  intros Hc Hfuel. unfold _split_text_into_chunks.
  destruct (Z.leb_spec (Z.of_nat (length (split text))) (Z.of_nat c)); [lia|].
  change 0 with (Z.of_nat 0).
  rewrite split_loop_windows by lia. cbn [app]. rewrite Nat.sub_0_r.
  replace ((length (split text) + c - 1) / c)%nat
    with (S ((length (split text) - 1) / c)).
  - apply f_equal, List.map_ext. intros j. by rewrite Nat.add_0_l.
  - replace (length (split text) + c - 1)%nat
      with ((length (split text) - 1) + 1 * c)%nat by lia.
    rewrite Nat.div_add by lia. lia.
Qed.

Lemma chunks_without_overlap_layout_witness :
  _split_text_into_chunks 5 (Z.of_nat 2) 0 (py "a b c d e")
  = Some (List.map (fun j => join [space] (take 2 (drop (j * 2) (split (py "a b c d e")))))
            (seq 0 ((length (split (py "a b c d e")) + 2 - 1) / 2))).
Proof.
  assert (H : length (split (py "a b c d e")) = 5%nat) by (vm_compute; reflexivity).
  apply (chunks_without_overlap_layout 2 (py "a b c d e") 5); rewrite H; lia.
Defined.



End ChunkerLayout.

(* ===================================================================== *)
(** * What the index persists *)
(* ===================================================================== *)

Section PersistFacts.

Ltac store_steps :=
  unfold _reconnect_client, collection_add, client_connect, client_reset,
    time_sleep in *;
  unfold try_catch, mbind, M_bind, bind, mret, M_ret, ret, raise, modify, get,
    run_total in *.

Lemma add_batch_contract (env : Env) (documents : list str)
    (metadatas : list (gmap string value)) (ids : list str)
    (vs : VectorStore.VectorStore) :
  exists (success : bool) (vs' : VectorStore.VectorStore),
    _add_batch env documents metadatas ids vs = (Ret success, vs')
    /\ collection vs' =
         collection vs ++
         (if success then List.map make_entry (zip3 ids documents metadatas) else [])
    /\ seen_hashes vs' = seen_hashes vs
    /\ same_config vs vs'
    /\ (add_calls vs < add_calls vs' <= add_calls vs + 3)%nat.
Proof.
  unfold _add_batch, same_config.
  cbn [seq max_retries add_batch_attempts Nat.ltb Nat.leb Nat.sub]. store_steps.
  destruct (add_ok env (add_calls vs)) eqn:H0; cbn.
  { eexists _, _. repeat split; cbn; lia. }
  destruct (reconnect_ok env (reconnect_calls vs)); cbn;
    (destruct (add_ok env (S (add_calls vs))) eqn:H1; cbn;
     [ eexists _, _; repeat split; cbn; lia |]);
    (destruct (reconnect_ok env (S (reconnect_calls vs))); cbn;
     (destruct (add_ok env (S (S (add_calls vs)))) eqn:H2; cbn;
      eexists _, _; repeat split; cbn; rewrite ?app_nil_r; try done; lia)).
Qed.

(** A flush never raises. It calls the backend's [add] between one and
    three times, leaves the dedup cache and the configuration alone, and
    persists its batch exactly once when it returns [True] and not at all
    when it returns [False], however many writes failed before. *)
Theorem add_batch_persists_once (env : Env) (documents : list str)
    (metadatas : list (gmap string value)) (ids : list str)
    (vs : VectorStore.VectorStore) :
  exists (success : bool) (vs' : VectorStore.VectorStore),
    _add_batch env documents metadatas ids vs = (Ret success, vs')
    /\ collection vs' =
         collection vs ++
         (if success then List.map make_entry (zip3 ids documents metadatas) else [])
    /\ seen_hashes vs' = seen_hashes vs
    /\ same_config vs vs'
    /\ (add_calls vs < add_calls vs' <= add_calls vs + 3)%nat.
Proof. apply add_batch_contract. Qed.


Lemma zip3_snoc {A B C : Type} (la : list A) (lb : list B) (lc : list C)
    (a : A) (b : B) (c : C) :
  length la = length lb -> length la = length lc ->
  zip3 (la ++ [a]) (lb ++ [b]) (lc ++ [c]) = zip3 la lb lc ++ [(a, b, c)].
Proof.
  revert lb lc. induction la as [|x la IH]; intros [|y lb] [|z lc] Hb Hc;
    try discriminate; [done|].
  cbn in *. f_equal. apply IH; lia.
Qed.

(** One pass of the loop of [add_document], by cases. *)
Lemma add_document_loop_cons (env : Env) (doc_id : str)
    (metadata : option (gmap string value)) (total : nat) (i : nat) (chunk : str)
    (rest : list (nat * str)) (db : list str) (mb : list (gmap string value))
    (ib : list str) (vs : VectorStore.VectorStore) :
  add_document_loop env doc_id metadata total ((i, chunk) :: rest) (db, mb, ib) vs =
  if _passes_quality_check env chunk
     && negb (bool_decide (_calculate_chunk_hash env chunk ∈ seen_hashes vs))
  then
    let vs1 :=
      with_seen_hashes (fun s => s ∪ {[_calculate_chunk_hash env chunk]}) vs in
    let unique_id := _generate_unique_id env doc_id i in
    let db' := db ++ [chunk] in
    let mb' := mb ++ [chunk_metadata doc_id unique_id i total
                        (_calculate_chunk_hash env chunk) metadata] in
    let ib' := ib ++ [unique_id] in
    if batch_size vs <=? Z.of_nat (length db') then
      match _add_batch env db' mb' ib' vs1 with
      | (Ret true, vs2) =>
          add_document_loop env doc_id metadata total rest ([], [], []) vs2
      | (Ret false, vs2) => (Ret None, vs2)
      | (Raise e, vs2) => (Raise e, vs2)
      end
    else add_document_loop env doc_id metadata total rest (db', mb', ib') vs1
  else add_document_loop env doc_id metadata total rest (db, mb, ib) vs.
Proof.
  cbn [add_document_loop].
  destruct (_passes_quality_check env chunk); cbn [negb andb]; [|done].
  store_steps.
  destruct (bool_decide (_calculate_chunk_hash env chunk ∈ seen_hashes vs));
    cbn [negb]; [done|]. cbv zeta.
  destruct (batch_size vs <=? Z.of_nat (length (db ++ [chunk]))); [|done].
  destruct (_add_batch env _ _ _ _) as [[[|]|e] vs2]; done.
Qed.


Lemma seen_after_grows (env : Env) (chunks : list (nat * str)) :
  forall seen : gset (list N), seen ⊆ seen_after env chunks seen.
Proof.
  induction chunks as [|[i chunk] rest IH]; intros seen; [done|].
  cbn [seen_after]. destruct (_ && _); [|apply IH].
  etrans; [|apply IH]. apply union_subseteq_l.
Qed.

(** The loop of [add_document] never raises. What it has persisted when it
    ends, followed by what is still pending (or was given up at the early
    return), is the batch it started with followed by the accepted rows. *)
Lemma add_document_loop_spec (env : Env) (doc_id : str)
    (metadata : option (gmap string value)) (total : nat) :
  forall (chunks : list (nat * str)) (batch : Batch) (vs : VectorStore.VectorStore),
    batch_aligned batch ->
    exists (r : option Batch) (vs' : VectorStore.VectorStore)
           (flushed pending : list (str * str * gmap string value)),
      add_document_loop env doc_id metadata total chunks batch vs = (Ret r, vs')
      /\ collection vs' = collection vs ++ List.map make_entry flushed
      /\ flushed ++ pending
         = batch_rows batch
           ++ accepted_rows env doc_id metadata total chunks (seen_hashes vs)
      /\ same_config vs vs'
      /\ seen_hashes vs ⊆ seen_hashes vs'
      /\ seen_hashes vs' ⊆ seen_after env chunks (seen_hashes vs)
      /\ match r with
         | Some batch' =>
             batch_aligned batch' /\ batch_rows batch' = pending
             /\ seen_hashes vs' = seen_after env chunks (seen_hashes vs)
         | None => True
         end.
Proof.
  induction chunks as [|[i chunk] rest IH]; intros [[db mb] ib] vs Hal.
  - exists (Some (db, mb, ib)), vs, [], (batch_rows (db, mb, ib)).
    cbn [add_document_loop accepted_rows seen_after List.map app].
    rewrite !app_nil_r. unfold same_config.
    repeat split; try done; apply Hal.
  - rewrite add_document_loop_cons. cbn [accepted_rows seen_after].
    destruct (_passes_quality_check env chunk
              && negb (bool_decide (_calculate_chunk_hash env chunk ∈ seen_hashes vs)));
      [|by apply IH].
    cbv zeta.
    set (h := _calculate_chunk_hash env chunk).
    set (uid := _generate_unique_id env doc_id i).
    set (vs1 := with_seen_hashes (fun s => s ∪ {[h]}) vs).
    assert (Hrows : batch_rows (db ++ [chunk],
                      mb ++ [chunk_metadata doc_id uid i total h metadata],
                      ib ++ [uid])
                    = batch_rows (db, mb, ib)
                      ++ [chunk_row env doc_id metadata total i chunk]).
    { destruct Hal as [Hm Hi]. unfold batch_rows.
      rewrite zip3_snoc by congruence. reflexivity. }
    assert (Hal' : batch_aligned (db ++ [chunk],
                      mb ++ [chunk_metadata doc_id uid i total h metadata],
                      ib ++ [uid])).
    { destruct Hal as [Hm Hi]. unfold batch_aligned.
      rewrite !length_app. cbn. lia. }
    destruct (batch_size vs <=? Z.of_nat (length (db ++ [chunk]))).
    + destruct (add_batch_contract env (db ++ [chunk])
                  (mb ++ [chunk_metadata doc_id uid i total h metadata])
                  (ib ++ [uid]) vs1)
        as (success & vs2 & -> & Hcoll & Hseen & Hcfg & _).
      destruct success.
      * destruct (IH ([], [], []) vs2) as (r & vs' & flushed & pending & -> & Hc & Hf
                                           & Hcfg' & Hs1 & Hs2 & Hr);
          [done|].
        exists r, vs',
          (batch_rows (db, mb, ib) ++ [chunk_row env doc_id metadata total i chunk]
           ++ flushed), pending.
        split; [done|]. split.
        { rewrite Hc, Hcoll. fold (batch_rows (db ++ [chunk],
                      mb ++ [chunk_metadata doc_id uid i total h metadata],
                      ib ++ [uid])). rewrite Hrows.
          cbn. by rewrite !List.map_app, <- !app_assoc. }
        split.
        { rewrite <- !app_assoc. cbn [app]. do 2 f_equal.
          rewrite Hf, Hseen. reflexivity. }
        split.
        { unfold same_config in *. cbn in Hcfg. intuition congruence. }
        rewrite Hseen in Hs1, Hs2, Hr. cbn in Hs1, Hs2, Hr.
        split; [etrans; [apply union_subseteq_l | exact Hs1]|]. split; [done|]. done.
      * exists None, vs2, [],
          (batch_rows (db, mb, ib) ++ chunk_row env doc_id metadata total i chunk
             :: accepted_rows env doc_id metadata total rest (seen_hashes vs ∪ {[h]})).
        split; [done|]. rewrite Hcoll, Hseen. cbn.
        rewrite !app_nil_r. split; [done|]. split; [done|].
        split; [exact Hcfg|]. split; [apply union_subseteq_l|].
        split; [apply seen_after_grows | done].
    + destruct (IH (db ++ [chunk],
                    mb ++ [chunk_metadata doc_id uid i total h metadata],
                    ib ++ [uid]) vs1 Hal')
        as (r & vs' & flushed & pending & -> & Hc & Hf & Hcfg' & Hs1 & Hs2 & Hr).
      exists r, vs', flushed, pending.
      split; [done|]. split; [exact Hc|]. split.
      { rewrite Hf, Hrows, <- app_assoc. reflexivity. }
      split; [exact Hcfg'|]. cbn in Hs1, Hs2, Hr.
      split; [etrans; [apply union_subseteq_l | exact Hs1]|]. split; [done|]. done.
Qed.


Lemma add_document_contract (env : Env) (fuel : nat) (doc_id text : str)
    (metadata : option (gmap string value)) (vs : VectorStore.VectorStore)
    (chunks : list str) :
  _split_text_into_chunks fuel (chunk_size vs) (chunk_overlap vs) text = Some chunks ->
  exists (success : bool) (vs' : VectorStore.VectorStore)
         (flushed pending : list (str * str * gmap string value)),
    add_document env fuel doc_id text metadata vs = Some (success, vs')
    /\ collection vs' = collection vs ++ List.map make_entry flushed
    /\ flushed ++ pending
       = accepted_rows env doc_id metadata (length chunks) (enumerate chunks)
           (seen_hashes vs)
    /\ (success = true ->
          pending = []
          /\ seen_hashes vs' = seen_after env (enumerate chunks) (seen_hashes vs))
    /\ seen_hashes vs ⊆ seen_hashes vs'
    /\ seen_hashes vs' ⊆ seen_after env (enumerate chunks) (seen_hashes vs)
    /\ same_config vs vs'.
Proof.
  intros Hsplit. unfold add_document. rewrite Hsplit.
  destruct (add_document_loop_spec env doc_id metadata (length chunks)
              (enumerate chunks) ([], [], []) vs)
    as (r & vs1 & flushed & pending & Hrun & Hc & Hf & Hcfg & Hs1 & Hs2 & Hr); [done|].
  store_steps. rewrite Hrun. cbn [batch_rows zip3 app] in Hf.
  destruct r as [[[db mb] ib]|].
  - destruct Hr as (Hal & Hrows & Hseen).
    destruct db as [|d db]; cbn [truthy].
    + exists true, vs1, flushed, pending.
      assert (pending = []) as Hp.
      { rewrite <- Hrows. destruct Hal as [Hm Hi]. by destruct ib. }
      repeat split; try done; apply Hcfg.
    + destruct (add_batch_contract env (d :: db) mb ib vs1)
        as (success & vs2 & -> & Hcoll & Hseen2 & Hcfg2 & _).
      unfold batch_rows in Hrows.
      destruct success.
      * exists true, vs2, (flushed ++ pending), [].
        rewrite app_nil_r, Hcoll, Hc, Hrows, List.map_app, <- app_assoc, Hseen2.
        unfold same_config in *. repeat split; try done; intuition congruence.
      * exists false, vs2, flushed, pending.
        rewrite Hcoll, Hc, app_nil_r, Hseen2.
        unfold same_config in *. repeat split; try done; intuition congruence.
  - exists false, vs1, flushed, pending. repeat split; try done; apply Hcfg.
Qed.




(** ** Ids *)





(** ** The accepted rows *)







(** ** Dedup *)

Lemma passes_quality_check_ext (env env2 : Env) (chunk : str) :
  (forall c : char, isalpha env2 c = isalpha env c) ->
  _passes_quality_check env2 chunk = _passes_quality_check env chunk.
Proof.
  intros H. unfold _passes_quality_check.
  by rewrite (List.filter_ext (isalpha env2) (isalpha env) H).
Qed.

Lemma seen_after_covers (env : Env) (chunks : list (nat * str)) :
  forall (seen : gset (list N)) (i : nat) (chunk : str),
    (i, chunk) ∈ chunks ->
    _passes_quality_check env chunk = true ->
    _calculate_chunk_hash env chunk ∈ seen_after env chunks seen.
Proof.
  induction chunks as [|[j c] rest IH]; intros seen i chunk Hin Hq.
  { by apply elem_of_nil in Hin. }
  cbn [seen_after]. apply elem_of_cons in Hin as [[= <- <-]|Hin].
  - rewrite Hq. cbn [andb].
    destruct (bool_decide (_calculate_chunk_hash env chunk ∈ seen)) eqn:Hs; cbn [negb].
    + apply bool_decide_eq_true_1 in Hs. by apply seen_after_grows.
    + apply seen_after_grows, elem_of_union. right. by apply elem_of_singleton.
  - destruct (_ && _); by eapply IH.
Qed.

(** When every chunk that passes the quality gate has its hash in the
    cache, the loop queues nothing, writes nothing and changes nothing. *)
Lemma add_document_loop_noop (env : Env) (doc_id : str)
    (metadata : option (gmap string value)) (total : nat)
    (vs : VectorStore.VectorStore) :
  forall (chunks : list (nat * str)) (batch : Batch),
    (forall (i : nat) (chunk : str),
        (i, chunk) ∈ chunks ->
        _passes_quality_check env chunk = true ->
        _calculate_chunk_hash env chunk ∈ seen_hashes vs) ->
    add_document_loop env doc_id metadata total chunks batch vs = (Ret (Some batch), vs).
Proof.
  induction chunks as [|[i chunk] rest IH]; intros [[db mb] ib] Hseen; [done|].
  rewrite add_document_loop_cons.
  destruct (_passes_quality_check env chunk) eqn:Hq; cbn [andb].
  - rewrite bool_decide_eq_true_2 by (eapply Hseen; [left | done]).
    cbn [negb]. apply IH. intros j c Hin. apply (Hseen j c). by right.
  - apply IH. intros j c Hin. apply (Hseen j c). by right.
Qed.

(** Dedup. Once [add_document] has returned [True] for a text, adding the
    same text again in the same process (under any document id, with any
    metadata, and whatever state the backend is in) returns [True] and
    leaves the store exactly as it was: no chunk is queued and the backend
    is not called. *)
Theorem add_document_twice_is_noop (env env2 : Env) (fuel : nat) (doc_id doc_id2 text : str)
    (metadata metadata2 : option (gmap string value))
    (vs vs' : VectorStore.VectorStore) :
  (forall s : str, sha1_hexdigest env2 s = sha1_hexdigest env s) ->
  (forall c : char, isalpha env2 c = isalpha env c) ->
  add_document env fuel doc_id text metadata vs = Some (true, vs') ->
  add_document env2 fuel doc_id2 text metadata2 vs' = Some (true, vs').
Proof.
  intros Hsha Halpha Hrun.
  destruct (_split_text_into_chunks fuel (chunk_size vs) (chunk_overlap vs) text)
    as [chunks|] eqn:Hsplit;
    [|by unfold add_document in Hrun; rewrite Hsplit in Hrun].
  destruct (add_document_contract env fuel doc_id text metadata vs chunks Hsplit)
    as (success0 & vs0 & flushed & pending & Hrun0 & _ & _ & Hok & _ & _ & Hcfg).
  rewrite Hrun in Hrun0. injection Hrun0 as <- <-.
  destruct (Hok eq_refl) as [_ Hseen]. destruct Hcfg as (Hcs & Hov & _).
  unfold add_document. rewrite Hcs, Hov, Hsplit. store_steps.
  rewrite add_document_loop_noop.
  - reflexivity.
  - intros i chunk Hin Hq. unfold _calculate_chunk_hash. rewrite Hsha, Hseen.
    rewrite (passes_quality_check_ext env env2) in Hq by done.
    by apply (seen_after_covers env (enumerate chunks) (seen_hashes vs) i chunk).
Qed.

Lemma add_document_twice_is_noop_witness :
  exists vs' : VectorStore.VectorStore,
    add_document (recovered offline_env) 0 (py "handbuch.pdf") sample_text None
      default_store = Some (true, vs')
    /\ add_document offline_env 0 (py "kopie.pdf") sample_text None vs' = Some (true, vs').
Proof.
  assert (exists vs' : VectorStore.VectorStore,
            add_document (recovered offline_env) 0 (py "handbuch.pdf") sample_text None
              default_store = Some (true, vs')) as [vs' Hrun]
    by (eexists; vm_compute; reflexivity).
  exists vs'. split; [exact Hrun|].
  by apply (add_document_twice_is_noop (recovered offline_env) offline_env 0
              (py "handbuch.pdf") (py "kopie.pdf") sample_text None None
              default_store vs').
Defined.

(** ** The quality gate *)




End PersistFacts.

(* ===================================================================== *)
(** * What a search keeps and what it drops *)
(* ===================================================================== *)

Section SearchCompleteness.

Local Open Scope Q_scope.

Lemma compute_score_defined (d : Q) : ~ 1 + d == 0 -> compute_score d = Ret (score d).
Proof.
  intros H. unfold compute_score.
  destruct (Qeq_bool (1 + d) 0) eqn:Hz; [|done].
  by apply Qeq_bool_eq in Hz.
Qed.

Lemma compute_score_raises (d : Q) :
  1 + d == 0 -> compute_score d = Raise (Exception "ZeroDivisionError").
Proof. intros H. unfold compute_score. by rewrite (Qeq_eq_bool _ _ H). Qed.

(** Without a division by zero the filter loop keeps exactly the rows that
    reach the threshold, in their order. *)
Lemma filter_results_complete (rows : list (gmap string value * Q * str)) (t : Q) :
  Forall (fun row => ~ divides_by_zero row) rows ->
  forall acc : list SearchResult,
    filter_results rows t acc = Ret (acc ++ qualifying_hits rows t).
Proof.
  unfold qualifying_hits, divides_by_zero.
  induction 1 as [|[[m d] doc] rows Hd _ IH]; intros acc.
  - cbn. by rewrite app_nil_r.
  - cbn [filter_results List.filter List.map]. cbn in Hd.
    rewrite (compute_score_defined d Hd). cbn.
    destruct (Qle_bool t (score d)); cbn [List.map]; rewrite IH; [|done].
    by rewrite <- app_assoc.
Qed.

(** One division by zero makes the loop raise, whatever the other rows. *)
Lemma filter_results_raises (rows : list (gmap string value * Q * str)) (t : Q) :
  Exists divides_by_zero rows ->
  forall acc : list SearchResult,
    exists e : exn, filter_results rows t acc = Raise e.
Proof.
  unfold divides_by_zero.
  induction rows as [|[[m d] doc] rows IH]; intros Hex acc.
  - by apply Exists_nil in Hex.
  - cbn [filter_results].
    destruct (Qeq_bool (1 + d) 0) eqn:Hz.
    + unfold compute_score. rewrite Hz. cbn. eauto.
    + apply Exists_cons in Hex as [Hd|Hex].
      * cbn in Hd. apply Qeq_eq_bool in Hd. congruence.
      * unfold compute_score. rewrite Hz. cbn.
        destruct (Qle_bool t (score d)); by apply IH.
Qed.

Lemma rank_results_complete (results : QueryResult) (n : nat) (t : Q) :
  has_rows results ->
  Forall (fun row => ~ divides_by_zero row) (answer_rows results) ->
  rank_results results n t
  = Ret (take n (sort_by_score (qualifying_hits (answer_rows results) t))).
Proof.
  unfold has_rows, rank_results, answer_rows. intros (Hm & Hd & Hdoc) Hrows.
  destruct (metadatas results) as [|ms ?]; [done|].
  destruct (distances results) as [|ds ?]; [done|].
  destruct (documents results) as [|docs ?]; [done|]. cbn.
  by rewrite (filter_results_complete _ t Hrows []).
Qed.

Lemma rank_results_fails (results : QueryResult) (n : nat) (t : Q) :
  ~ has_rows results \/ Exists divides_by_zero (answer_rows results) ->
  exists e : exn, rank_results results n t = Raise e.
Proof.
  unfold has_rows, rank_results, answer_rows. intros H.
  destruct (metadatas results) as [|ms ?]; [cbn; eauto|].
  destruct (distances results) as [|ds ?]; [cbn; eauto|].
  destruct (documents results) as [|docs ?]; [cbn; eauto|]. cbn.
  destruct H as [H|H]; [by destruct H|].
  destruct (filter_results_raises _ t H []) as [e ->]. cbn. eauto.
Qed.

(** The head of a ranked list is a best element of it. *)
Lemma ranked_head_is_best (first : SearchResult) (l : list SearchResult) :
  ranked (first :: l) ->
  Forall (fun hit => similarity_score hit <= similarity_score first) (first :: l).
Proof.
  unfold ranked. intros H. apply StronglySorted_inv in H as [_ H].
  constructor; [apply Qle_refl | done].
Qed.

(** [search_in_document] loses nothing it should keep. When the backend
    answers with rows and no distance is -1, the result is exactly the
    [n_results] first of the stably sorted hits that reach the threshold:
    if at most [n_results] rows reach it, every one of them is returned,
    and the first result scores at least as much as every row that reaches
    the threshold. *)
Theorem search_in_document_keeps_the_best (env : Env) (vs : VectorStore.VectorStore)
    (query doc_id : str) (n_results : nat) (similarity_threshold : Q)
    (results : QueryResult) :
  collection_query env (collection vs) query (n_results * 2)%nat (Some doc_id)
  = Ret results ->
  has_rows results ->
  Forall (fun row => ~ divides_by_zero row) (answer_rows results) ->
  let found := search_in_document env vs query doc_id n_results similarity_threshold in
  let hits := qualifying_hits (answer_rows results) similarity_threshold in
  found = take n_results (sort_by_score hits)
  /\ ((length hits <= n_results)%nat -> found ≡ₚ hits)
  /\ (forall (first : SearchResult) (others : list SearchResult),
        found = first :: others ->
        Forall (fun hit => similarity_score hit <= similarity_score first) hits).
Proof.
  intros Hq Hrows Hdiv found hits.
  assert (Hfound : found = take n_results (sort_by_score hits)).
  { subst found hits. unfold search_in_document. rewrite Hq. cbn.
    by rewrite rank_results_complete. }
  split; [exact Hfound|]. split.
  - intros Hlen. rewrite Hfound, take_ge.
    + apply sort_by_score_perm.
    + by rewrite (Permutation_length (sort_by_score_perm hits)).
  - intros first others Hfirst.
    pose proof (sort_by_score_ranked hits) as Hranked.
    rewrite Hfirst in Hfound.
    destruct (sort_by_score hits) as [|best sorted] eqn:Hsorted.
    { by rewrite take_nil in Hfound. }
    destruct n_results as [|n]; [done|]. cbn [take] in Hfound.
    injection Hfound as -> _.
    apply ranked_head_is_best in Hranked.
    rewrite <- (sort_by_score_perm hits), Hsorted. exact Hranked.
Qed.

End SearchCompleteness.

Section SearchEdges.

Local Open Scope Q_scope.

Lemma search_in_document_keeps_the_best_witness :
  let found := search_in_document two_documents_env default_store (py "frage")
                 (py "A.pdf") 2 default_threshold in
  let hits := qualifying_hits
                [(∅, 4, py "a-weak"); (∅, 1 # 9, py "a-best")] default_threshold in
  found = take 2 (sort_by_score hits)
  /\ ((length hits <= 2)%nat -> found ≡ₚ hits)
  /\ (forall (first : SearchResult) (others : list SearchResult),
        found = first :: others ->
        Forall (fun hit => similarity_score hit <= similarity_score first) hits).
Proof.
  apply (search_in_document_keeps_the_best two_documents_env default_store (py "frage")
           (py "A.pdf") 2 default_threshold
           {| metadatas := [[∅; ∅]];
              distances := [[4; 1 # 9]];
              documents := [[py "a-weak"; py "a-best"]] |}).
  - reflexivity.
  - by repeat split.
  - repeat constructor; unfold divides_by_zero; cbn; discriminate.
Defined.

(** [search_in_document] turns every failure into the empty list: a query
    that raises, an answer without rows, and a single distance of -1 (the
    division by zero discards the hits of all other rows as well). *)
Theorem search_in_document_failure_is_empty (env : Env) (vs : VectorStore.VectorStore)
    (query doc_id : str) (n_results : nat) (similarity_threshold : Q) :
  (exists e : exn,
     collection_query env (collection vs) query (n_results * 2)%nat (Some doc_id)
     = Raise e)
  \/ (exists results : QueryResult,
        collection_query env (collection vs) query (n_results * 2)%nat (Some doc_id)
        = Ret results
        /\ (~ has_rows results \/ Exists divides_by_zero (answer_rows results))) ->
  search_in_document env vs query doc_id n_results similarity_threshold = [].
Proof.
  unfold search_in_document. intros [[e ->]|(results & -> & Hbad)]; [done|]. cbn.
  by destruct (rank_results_fails results n_results similarity_threshold Hbad) as [e ->].
Qed.

Lemma search_in_document_failure_is_empty_witness :
  search_in_document offline_env default_store (py "frage") (py "A.pdf") 2
    default_threshold = [].
Proof.
  apply (search_in_document_failure_is_empty offline_env default_store (py "frage")
           (py "A.pdf") 2 default_threshold).
  left. by exists (Exception "collection.query").
Defined.






End SearchEdges.

(* ===================================================================== *)
(** * Long answers *)
(* ===================================================================== *)

Section RouterFacts.

Lemma py_slice_from {A : Type} (l : list A) (a b : nat) :
  (a <= b)%nat -> (a <= length l)%nat ->
  py_slice l (Z.of_nat a) (Z.of_nat b) = take (b - a) (drop a l).
Proof.
  intros Hab Ha. destruct (Nat.le_gt_cases b (length l)) as [Hb|Hb].
  - apply py_slice_in_range. lia.
  - unfold py_slice, slice_index.
    destruct (Z.ltb_spec (Z.of_nat a) 0); [lia|].
    destruct (Z.ltb_spec (Z.of_nat b) 0); [lia|].
    rewrite (Z.min_l (Z.of_nat a)), (Z.min_r (Z.of_nat b)) by lia.
    replace (Z.to_nat (Z.of_nat a)) with a by lia.
    rewrite !take_ge; [done | | ]; rewrite length_drop; lia.
Qed.

Lemma ceil_div_covers (n step : nat) :
  (0 < step)%nat -> (n <= (n + step - 1) / step * step)%nat.
Proof.
  intros Hs. pose proof (Nat.mul_succ_div_gt (n + step - 1) step ltac:(lia)). lia.
Qed.

Lemma ceil_div_below (n step k : nat) :
  (0 < step)%nat -> (k < (n + step - 1) / step)%nat -> (k * step < n)%nat.
Proof.
  intros Hs Hk. pose proof (Nat.Div0.mul_div_le (n + step - 1) step). nia.
Qed.

Lemma concat_windows {A : Type} (l : list A) (step m : nat) :
  concat (List.map (fun k => take step (drop (k * step) l)) (seq 0 m))
  = take (m * step) l.
Proof.
  induction m as [|m IH]; [done|].
  rewrite seq_S, List.map_app, concat_app, IH. cbn [List.map concat Nat.add].
  rewrite app_nil_r, take_take_drop. f_equal. lia.
Qed.

(** The parts in which a long answer is sent, put together in order, are
    the answer; every part has between 1 and 4096 characters; there are
    [ceil(len / 4096)] of them, so that an empty answer sends nothing. *)
Theorem answer_parts_rebuild_answer (answer : str) :
  concat (answer_parts answer) = answer
  /\ Forall (fun part => (1 <= length part <= max_length)%nat) (answer_parts answer)
  /\ length (answer_parts answer) = ((length answer + max_length - 1) / max_length)%nat
  /\ answer_parts [] = [].
Proof.
  assert (Hpos : (0 < max_length)%nat) by (unfold max_length; lia).
  assert (Hparts : answer_parts answer
                   = List.map (fun k => take max_length (drop (k * max_length) answer))
                       (seq 0 ((length answer + max_length - 1) / max_length))).
  { unfold answer_parts, py_range. rewrite List.map_map.
    apply List.map_ext_in. intros k Hk. apply in_seq in Hk.
    pose proof (ceil_div_below (length answer) max_length k Hpos ltac:(lia)).
    rewrite py_slice_from by lia. f_equal. lia. }
  split; [|split; [|split]].
  - rewrite Hparts, concat_windows. apply take_ge.
    by apply ceil_div_covers.
  - rewrite Hparts. apply Forall_forall. intros part Hin.
    apply list_elem_of_In, in_map_iff in Hin as (k & <- & Hk). apply in_seq in Hk.
    pose proof (ceil_div_below (length answer) max_length k Hpos ltac:(lia)).
    rewrite length_take, length_drop. lia.
  - by rewrite Hparts, length_map, length_seq.
  - reflexivity.
Qed.

End RouterFacts.

(* ===================================================================== *)
(** * Stripping and the extractor's output *)
(* ===================================================================== *)

Section StripFacts.

Lemma lstrip_clean (s : str) : starts_clean (lstrip s).
Proof.
  induction s as [|c s IH]; [done|]. cbn [lstrip].
  by destruct (isspace c) eqn:Hc.
Qed.

Lemma lstrip_id (s : str) : starts_clean s -> lstrip s = s.
Proof. destruct s as [|c s]; [done|]. cbn. by intros ->. Qed.

Lemma lstrip_suffix (s : str) : exists pre : str, s = pre ++ lstrip s /\ blank pre.
Proof.
  unfold blank.
  induction s as [|c s (pre & Hs & Hpre)]; [by exists []|]. cbn [lstrip].
  destruct (isspace c) eqn:Hc.
  - exists (c :: pre). split; [by rewrite Hs at 1 | by constructor].
  - by exists [].
Qed.

Lemma lstrip_nil (s : str) : lstrip s = [] <-> blank s.
Proof.
  unfold blank. induction s as [|c s IH]; [done|]. cbn [lstrip].
  destruct (isspace c) eqn:Hc.
  - rewrite IH. split; [by constructor | by inversion 1].
  - split; [done|]. inversion 1; congruence.
Qed.

Lemma clean_blank_nil (s : str) : starts_clean s -> blank s -> s = [].
Proof. destruct s as [|c s]; [done|]. cbn. intros Hc Hb. inversion Hb; congruence. Qed.

(** [strip] gives the empty text exactly on the texts that are blank. *)
Lemma strip_nil (s : str) : strip s = [] <-> blank s.
Proof.
  unfold strip. split.
  - intros H. apply (f_equal (@rev N)) in H. rewrite rev_involutive in H. cbn in H.
    apply lstrip_nil in H. unfold blank in H. apply Forall_rev in H.
    rewrite rev_involutive in H.
    apply lstrip_nil. by apply clean_blank_nil; [apply lstrip_clean|].
  - intros H. apply lstrip_nil in H. by rewrite H.
Qed.

(** [strip] leaves no whitespace at either end. *)
Lemma strip_no_outer_whitespace (s : str) : no_outer_whitespace (strip s).
Proof.
  unfold no_outer_whitespace, strip. split.
  - pose proof (lstrip_clean s) as Hx.
    destruct (lstrip_suffix (rev (lstrip s))) as (pre & Hrev & Hpre).
    destruct (rev (lstrip (rev (lstrip s)))) as [|c r] eqn:Hy; [done|]. cbn.
    apply (f_equal (@rev N)) in Hrev. rewrite rev_involutive, rev_app_distr, Hy in Hrev.
    rewrite Hrev in Hx. exact Hx.
  - rewrite rev_involutive. apply lstrip_clean.
Qed.

Lemma strip_fixed (s : str) : no_outer_whitespace s -> strip s = s.
Proof.
  intros [Hs Hr]. unfold strip.
  by rewrite (lstrip_id s Hs), (lstrip_id (rev s) Hr), rev_involutive.
Qed.

Lemma strip_idempotent (s : str) : strip (strip s) = strip s.
Proof. apply strip_fixed, strip_no_outer_whitespace. Qed.

Lemma remove_whitespace_blank (s : str) : blank s -> remove_whitespace s = [].
Proof.
  unfold blank, remove_whitespace. induction 1 as [|c s Hc _ IH]; [done|].
  cbn. by rewrite Hc.
Qed.

(** A sufficient text is not blank. *)
Lemma sufficient_not_blank (text : str) : _is_text_sufficient text = true -> ~ blank text.
Proof.
  unfold _is_text_sufficient. intros Hs Hb.
  rewrite (remove_whitespace_blank text Hb) in Hs.
  by destruct (negb (truthy text)).
Qed.

End StripFacts.

Section ExtractorOutput.

(** A page whose native text is sufficient gives that text whatever the
    OCR helper would do (it is not run). With both texts at hand the result
    is always one of the two, and it is a sufficient text whenever one of
    the two is sufficient. *)
Theorem process_page_prefers_sufficient_text :
  (forall (native : str) (ocr : outcome str),
     _is_text_sufficient native = true ->
     _process_page_async {| extract_text_normal := Ret native; extract_text_ocr := ocr |}
     = Ret (Some native))
  /\ (forall native ocr : str,
        exists result : str,
          _process_page_async
            {| extract_text_normal := Ret native; extract_text_ocr := Ret ocr |}
          = Ret (Some result)
          /\ (result = native \/ result = ocr)
          /\ (_is_text_sufficient native = true \/ _is_text_sufficient ocr = true ->
              _is_text_sufficient result = true)).
Proof.
  split.
  - intros native ocr Hs. unfold _process_page_async, process_page_body. cbn.
    by rewrite Hs.
  - intros native ocr. unfold _process_page_async, process_page_body. cbn.
    destruct (_is_text_sufficient native) eqn:Hn; cbn.
    + exists native. by repeat split; [left|].
    + destruct (_is_text_sufficient ocr) eqn:Ho; cbn.
      * exists ocr. by repeat split; [right|].
      * exists (if truthy native then native else ocr).
        split; [done|]. split; [destruct (truthy native); [by left | by right]|].
        by intros [|].
Qed.

Lemma process_page_prefers_sufficient_text_witness :
  _process_page_async
    {| extract_text_normal := Ret page_sample;
       extract_text_ocr := Raise (Exception "pytesseract") |}
  = Ret (Some page_sample).
Proof.
  destruct process_page_prefers_sufficient_text as [Hnative _].
  apply (Hnative page_sample (Raise (Exception "pytesseract"))).
  vm_compute. reflexivity.
Defined.

Lemma collect_paragraphs_spec (page_texts : list (outcome (option str))) :
  (length (collect_paragraphs page_texts) <= length page_texts)%nat
  /\ Forall (fun paragraph =>
               paragraph <> [] /\ no_outer_whitespace paragraph
               /\ exists result : str,
                    Ret (Some result) ∈ page_texts /\ paragraph = strip result)
       (collect_paragraphs page_texts).
Proof.
  induction page_texts as [|[[result|]|e] rest [IHlen IHall]];
    cbn [collect_paragraphs length].
  - split; [lia | constructor].
  - assert (Hrest : Forall (fun paragraph =>
               paragraph <> [] /\ no_outer_whitespace paragraph
               /\ exists r : str,
                    Ret (Some r) ∈ Ret (Some result) :: rest /\ paragraph = strip r)
              (collect_paragraphs rest)).
    { eapply Forall_impl; [exact IHall|]. intros p (Hne & Hw & r & Hin & Hp).
      repeat split; try done; try apply Hw. exists r. split; [by right | done]. }
    destruct (truthy result && (0 <? length (strip result))%nat) eqn:Hc.
    + split; [cbn; lia|]. constructor; [|exact Hrest].
      apply andb_prop in Hc as [_ Hlen]. apply Nat.ltb_lt in Hlen.
      split; [intros Heq; rewrite Heq in Hlen; cbn in Hlen; lia|].
      split; [apply strip_no_outer_whitespace|].
      exists result. split; [by left | done].
    + split; [lia | exact Hrest].
  - split; [lia|]. eapply Forall_impl; [exact IHall|].
    intros p (Hne & Hw & r & Hin & Hp).
    repeat split; try done; try apply Hw. exists r. split; [by right | done].
  - split; [lia|]. eapply Forall_impl; [exact IHall|].
    intros p (Hne & Hw & r & Hin & Hp).
    repeat split; try done; try apply Hw. exists r. split; [by right | done].
Qed.

(** The paragraphs of a document are at most as many as its pages; each is
    non-empty, has no whitespace at either end (stripping it again changes
    nothing), and is the stripped result of one of the pages. *)
Theorem extracted_paragraphs_are_stripped (pages : list Page) :
  exists paragraphs : list str,
    extract_paragraphs_from_pdf (Ret pages) = Ret paragraphs
    /\ (length paragraphs <= length pages)%nat
    /\ Forall (fun paragraph =>
                 paragraph <> []
                 /\ no_outer_whitespace paragraph
                 /\ strip paragraph = paragraph
                 /\ exists (page : Page) (result : str),
                      page ∈ pages
                      /\ _process_page_async page = Ret (Some result)
                      /\ paragraph = strip result) paragraphs.
Proof.
  eexists. split; [reflexivity|]. unfold gather.
  destruct (collect_paragraphs_spec (List.map _process_page_async pages)) as [Hlen Hall].
  rewrite length_map in Hlen. split; [exact Hlen|].
  eapply Forall_impl; [exact Hall|]. intros p (Hne & Hw & r & Hin & Hp).
  split; [done|]. split; [done|]. split; [by apply strip_fixed|].
  apply list_elem_of_In, in_map_iff in Hin as (page & Hpage & Hin).
  exists page, r. by split; [apply list_elem_of_In|].
Qed.

(** When every page has sufficient native text, the document gives one
    paragraph per page, in page order: the page's native text, stripped. *)
Theorem sufficient_pages_give_one_paragraph_each (pages : list Page) (natives : list str) :
  Forall2 (fun page native =>
             extract_text_normal page = Ret native
             /\ _is_text_sufficient native = true) pages natives ->
  extract_paragraphs_from_pdf (Ret pages) = Ret (List.map strip natives).
Proof.
  intros H. cbn. f_equal. unfold gather.
  induction H as [|page native pages natives [Hn Hs] _ IH]; [done|].
  cbn [List.map collect_paragraphs].
  unfold _process_page_async at 1, process_page_body. rewrite Hn. cbn. rewrite Hs. cbn.
  pose proof (sufficient_not_blank native Hs) as Hnb.
  assert (strip native <> []) as Hne by (by rewrite strip_nil).
  assert (truthy native = true) as ->.
  { destruct native; [|done]. exfalso. apply Hnb. constructor. }
  destruct (strip native) as [|c r] eqn:Hstrip; [done|]. cbn. by rewrite IH.
Qed.

Lemma sufficient_pages_give_one_paragraph_each_witness :
  extract_paragraphs_from_pdf
    (Ret [ {| extract_text_normal := Ret (space :: page_sample);
              extract_text_ocr := Raise (Exception "pytesseract") |} ])
  = Ret (List.map strip [space :: page_sample]).
Proof.
  apply (sufficient_pages_give_one_paragraph_each
           [ {| extract_text_normal := Ret (space :: page_sample);
                extract_text_ocr := Raise (Exception "pytesseract") |} ]
           [space :: page_sample]).
  constructor; [|constructor]. split; [reflexivity | vm_compute; reflexivity].
Defined.

End ExtractorOutput.

(* ===================================================================== *)
(** * OCR quality and the choice of the OCR text *)
(* ===================================================================== *)

Section OcrFacts.

Local Open Scope Q_scope.

Lemma qmin_le_r (a b : Q) : qmin a b <= b.
Proof.
  unfold qmin. destruct (Qle_bool a b) eqn:H.
  - by apply Qle_bool_iff.
  - apply Qle_refl.
Qed.

Lemma qmin_nonneg (a b : Q) : 0 <= a -> 0 <= b -> 0 <= qmin a b.
Proof. unfold qmin. by destruct (Qle_bool a b). Qed.

Lemma qmin_pos (a b : Q) : 0 < a -> 0 < b -> 0 < qmin a b.
Proof. unfold qmin. by destruct (Qle_bool a b). Qed.

Lemma ratio_nonneg (a b : nat) : 0 <= ratio a b.
Proof.
  unfold ratio. destruct b as [|b].
  - unfold Qdiv. cbn. rewrite Qmult_0_r. apply Qle_refl.
  - apply Qle_shift_div_l.
    + unfold Qlt. cbn. lia.
    + rewrite Qmult_0_l. unfold Qle. cbn. lia.
Qed.

Lemma ratio_pos (a b : nat) : (0 < a)%nat -> (0 < b)%nat -> 0 < ratio a b.
Proof.
  intros Ha Hb. unfold ratio. apply Qlt_shift_div_l.
  - unfold Qlt. cbn. lia.
  - rewrite Qmult_0_l. unfold Qlt. cbn. lia.
Qed.

Lemma mult_weight_nonneg (a w : Q) : 0 <= a -> 0 <= w -> 0 <= a * w.
Proof. intros. by apply Qmult_le_0_compat. Qed.

Lemma split_not_nil (s : str) : remove_whitespace s <> [] -> split s <> [].
Proof.
  unfold remove_whitespace. induction s as [|c s IH]; [done|].
  cbn [List.filter split]. destruct (isspace c) eqn:Hc; cbn [negb]; [exact IH|].
  intros _. destruct s as [|d s]; [done|].
  destruct (isspace d); [done|]. by destruct (split (d :: s)).
Qed.

Lemma blank_remove_whitespace (s : str) : blank s <-> remove_whitespace s = [].
Proof.
  split; [apply remove_whitespace_blank|].
  unfold blank, remove_whitespace. induction s as [|c s IH]; [constructor|].
  cbn. destruct (isspace c) eqn:Hc; cbn; [|done].
  intros H. constructor; [done | by apply IH].
Qed.

Lemma ocr_quality_bounds_aux (text : str) :
  0 <= _evaluate_ocr_quality text <= 1
  /\ (blank text -> _evaluate_ocr_quality text = 0)
  /\ (~ blank text -> 0 < _evaluate_ocr_quality text).
Proof.
  unfold _evaluate_ocr_quality.
  destruct (negb (truthy text)) eqn:Ht.
  { repeat split; try done. intros Hnb. destruct text; [|done].
    exfalso. apply Hnb. constructor. }
  destruct (Nat.eqb_spec (length (remove_whitespace text)) 0) as [Hz|Hnz].
  { repeat split; try done. intros Hnb. exfalso. apply Hnb, blank_remove_whitespace.
    by destruct (remove_whitespace text). }
  assert (Hwords : split text <> []).
  { apply split_not_nil. intros H. by rewrite H in Hnz. }
  cbv zeta.
  set (r1 := ratio _ (length (remove_whitespace text))).
  set (m2 := qmin (ratio (length (split text)) 100) 1).
  set (avg := if truthy (split text)
              then ratio (sum_lengths (split text)) (length (split text)) else 0).
  set (m3 := qmin (avg / 8) 1).
  assert (H1 : 0 <= r1 * (4 # 10)) by (apply mult_weight_nonneg; [apply ratio_nonneg | done]).
  assert (H2 : 0 < m2 * (3 # 10)).
  { apply Qmult_lt_0_compat; [|done]. apply qmin_pos; [|done].
    apply ratio_pos; [|lia]. destruct (split text); [done | cbn; lia]. }
  assert (H3 : 0 <= m3 * (3 # 10)).
  { apply mult_weight_nonneg; [|done]. apply qmin_nonneg; [|done].
    apply Qle_shift_div_l; [done|]. rewrite Qmult_0_l. subst avg.
    destruct (truthy (split text)); [apply ratio_nonneg | done]. }
  assert (Hpos : 0 < r1 * (4 # 10) + m2 * (3 # 10) + m3 * (3 # 10)).
  { apply Qlt_le_trans with (0 + m2 * (3 # 10) + 0).
    - by rewrite Qplus_0_l, Qplus_0_r.
    - apply Qplus_le_compat; [|done]. by apply Qplus_le_compat; [|apply Qle_refl]. }
  repeat split.
  - apply Qlt_le_weak, qmin_pos; done.
  - apply qmin_le_r.
  - intros Hb. exfalso. apply Hnz. by rewrite (remove_whitespace_blank text Hb).
  - intros _. by apply qmin_pos.
Qed.

(** The quality of an OCR text lies between 0 and 1, and it is 0 exactly
    for the texts without a visible character. *)
Theorem ocr_quality_bounds (text : str) :
  0 <= _evaluate_ocr_quality text <= 1
  /\ (blank text -> _evaluate_ocr_quality text = 0)
  /\ (~ blank text -> 0 < _evaluate_ocr_quality text).
Proof. apply ocr_quality_bounds_aux. Qed.


Lemma ocr_quality_nonneg (text : str) : 0 <= _evaluate_ocr_quality text.
Proof. apply ocr_quality_bounds_aux. Qed.


Lemma ocr_quality_blank (text : str) : blank text -> _evaluate_ocr_quality text = 0.
Proof. apply ocr_quality_bounds_aux. Qed.

Lemma ocr_quality_pos (text : str) : ~ blank text -> 0 < _evaluate_ocr_quality text.
Proof. apply ocr_quality_bounds_aux. Qed.

Section Choice.

Context {Image : Type} (tools : OcrTools Image).

(** The loop over the modes keeps three things true of the best text and
    quality: the quality is that of the text; no text seen so far has a
    larger quality; the text is the empty start value or a text seen so
    far of positive quality. *)
Lemma try_psm_modes_inv (image : Image) :
  forall (modes : list Z) (seen : list str) (b : str) (q : Q),
    q = _evaluate_ocr_quality b ->
    Forall (fun t => _evaluate_ocr_quality t <= q) seen ->
    (b = [] \/ (b ∈ seen /\ 0 < q)) ->
    let r := try_psm_modes tools image modes b q in
    r.2 = _evaluate_ocr_quality r.1
    /\ Forall (fun t => _evaluate_ocr_quality t <= r.2)
         (seen ++ image_outputs tools image modes)
    /\ (r.1 = [] \/ (r.1 ∈ seen ++ image_outputs tools image modes /\ 0 < r.2)).
Proof.
  induction modes as [|psm rest IH]; intros seen b q Hq Hseen Hb.
  - cbn. rewrite app_nil_r. done.
  - cbn [try_psm_modes image_outputs].
    destruct (image_to_string tools image psm) as [text|e]; [|by apply IH].
    cbv zeta.
    replace (seen ++ text :: image_outputs tools image rest)
      with ((seen ++ [text]) ++ image_outputs tools image rest)
      by (by rewrite <- app_assoc).
    destruct (Qle_bool (_evaluate_ocr_quality text) q) eqn:Hc; cbn [negb].
    + apply Qle_bool_iff in Hc. apply IH; [done | |].
      * apply Forall_app. split; [done | by constructor].
      * destruct Hb as [Hb|[Hb Hpos]]; [by left|]. right. split; [|done].
        apply elem_of_app. by left.
    + assert (Hlt : q < _evaluate_ocr_quality text).
      { apply Qnot_le_lt. intros Hle. apply Qle_bool_iff in Hle. congruence. }
      apply IH; [done | |].
      * apply Forall_app. split; [|constructor; [apply Qle_refl | constructor]].
        eapply Forall_impl; [exact Hseen|]. intros t Ht. cbn in Ht |- *.
        apply Qle_trans with q; [done | by apply Qlt_le_weak].
      * right. split; [apply elem_of_app; right; by left|].
        apply Qle_lt_trans with q; [|done]. rewrite Hq. apply ocr_quality_nonneg.
Qed.

Lemma try_dpis_inv :
  forall (dpis : list Z) (seen : list str) (b : str) (q : Q),
    q = _evaluate_ocr_quality b ->
    Forall (fun t => _evaluate_ocr_quality t <= q) seen ->
    (b = [] \/ (b ∈ seen /\ 0 < q)) ->
    let r := try_dpis tools dpis b q in
    r.2 = _evaluate_ocr_quality r.1
    /\ Forall (fun t => _evaluate_ocr_quality t <= r.2) (seen ++ dpi_outputs tools dpis)
    /\ (r.1 = [] \/ (r.1 ∈ seen ++ dpi_outputs tools dpis /\ 0 < r.2)).
Proof.
  induction dpis as [|dpi rest IH]; intros seen b q Hq Hseen Hb.
  - cbn. rewrite app_nil_r. done.
  - cbn [try_dpis dpi_outputs]. cbv zeta.
    destruct (or_else (convert_from_path tools dpi) []) as [|image images];
      [by apply IH|].
    destruct (try_psm_modes_inv image psm_modes seen b q Hq Hseen Hb)
      as (Hq' & Hseen' & Hb').
    rewrite app_assoc. by apply IH.
Qed.

Lemma extract_text_ocr_spec :
  let r := _extract_text_ocr tools in
  Forall (fun t => _evaluate_ocr_quality t <= _evaluate_ocr_quality r) (ocr_outputs tools)
  /\ (r = [] \/ (r ∈ ocr_outputs tools /\ 0 < _evaluate_ocr_quality r)).
Proof.
  unfold _extract_text_ocr, ocr_outputs.
  destruct (try_dpis_inv [default_dpi; fallback_dpi] [] [] 0) as (Hq & Hall & Hb);
    [done | constructor | by left |].
  cbn [app] in Hall, Hb. cbv zeta. rewrite <- Hq. done.
Qed.

End Choice.

(** [_extract_text_ocr] returns a text of the largest quality among all
    texts that were recognised. It returns the empty text when nothing was
    recognised or every recognised text is blank, and otherwise one of the
    recognised texts, which then has a visible character. *)
Theorem ocr_text_is_best_output {Image : Type} (tools : OcrTools Image) :
  let r := _extract_text_ocr tools in
  Forall (fun t => _evaluate_ocr_quality t <= _evaluate_ocr_quality r) (ocr_outputs tools)
  /\ (Forall blank (ocr_outputs tools) -> r = [])
  /\ (Exists (fun t => ~ blank t) (ocr_outputs tools) ->
      r ∈ ocr_outputs tools /\ ~ blank r).
Proof.
  intros r. destruct (extract_text_ocr_spec tools) as [Hall Hr]. fold r in Hall, Hr.
  split; [exact Hall|]. split.
  - intros Hblank. destruct Hr as [Hr|[Hin Hpos]]; [done|].
    rewrite Forall_forall in Hblank. apply Hblank in Hin.
    rewrite (ocr_quality_blank r Hin) in Hpos. by apply Qlt_irrefl in Hpos.
  - intros Hex. apply Exists_exists in Hex as (t & Hin & Hnb).
    assert (Hpos : 0 < _evaluate_ocr_quality r).
    { apply Qlt_le_trans with (_evaluate_ocr_quality t); [by apply ocr_quality_pos|].
      rewrite Forall_forall in Hall. by apply Hall. }
    assert (Hnb' : ~ blank r).
    { intros Hb. rewrite (ocr_quality_blank r Hb) in Hpos. by apply Qlt_irrefl in Hpos. }
    split; [|exact Hnb'].
    destruct Hr as [Hr|[Hr _]]; [|done]. exfalso. apply Hnb'. rewrite Hr. constructor.
Qed.

Lemma ocr_text_is_best_output_witness :
  _extract_text_ocr scanned_page ∈ ocr_outputs scanned_page
  /\ ~ blank (_extract_text_ocr scanned_page).
Proof.
  destruct (ocr_text_is_best_output scanned_page) as (_ & _ & Hsome).
  apply Hsome. apply Exists_exists. exists (py "Bild 1"). split.
  - vm_compute. right. left.
  - intros Hb. inversion Hb as [|c s Hc _]. discriminate Hc.
Defined.

End OcrFacts.
